(** * AIGate: request dispatch and response caching

    A shallow embedding of the proxy's cache store ([core/cache.ts]), of the
    provider adapters it calls ([integrations/openai.ts],
    [integrations/azure-openai.ts]) and of the request handlers registered by
    [startServer] ([core/server.ts]), followed by the properties of the
    dispatch-and-cache engine that the specification states.

    Conventions of the embedding.
    - JavaScript values are the inductive [jsval].  Numbers are the integers
      (every number the modelled code computes with is a millisecond clock
      value, a TTL or a status code).
    - A JavaScript object is the list of its own enumerable properties in
      enumeration order; [JSON.stringify] walks that list in order.
    - A promise that may reject is a [result]: [Ok v] or [Throw message].
    - Code that lives outside the repository (the [fetch] of the runtime,
      [JSON.parse], zod's [parse], [crypto.subtle.digest], the Redis client)
      is a variable of the section that uses it. *)

From stdpp Require Import base option list gmap strings pretty.
From Stdlib Require Import ZArith Ascii String Lia.

Set Warnings "-register-all".

Open Scope Z_scope.

(** ** JavaScript values *)

Inductive jsval : Type :=
| VUndefined
| VNull
| VBool (b : bool)
| VNum (n : Z)
| VStr (s : string)
| VArr (items : list jsval)
| VObj (props : list (string * jsval))
| VArrayBuffer (bytes : list Z)
| VBuffer (bytes : list Z).

(** A settled promise, or the outcome of an expression that may throw. *)
Inductive result (A : Type) : Type :=
| Ok (a : A)
| Throw (message : string).
Arguments Ok {A} a.
Arguments Throw {A} message.

(** ToBoolean. *)
Definition truthy (v : jsval) : bool :=
  match v with
  | VUndefined | VNull => false
  | VBool b => b
  | VNum n => negb (n =? 0)
  | VStr s => negb (String.eqb s "")
  | VArr _ | VObj _ | VArrayBuffer _ | VBuffer _ => true
  end.

(** [a || b]. *)
Definition js_or (a b : jsval) : jsval := if truthy a then a else b.

(** [String.prototype.includes]. *)
Fixpoint includes (s needle : string) : bool :=
  String.prefix needle s ||
  match s with
  | EmptyString => false
  | String _ rest => includes rest needle
  end.

(** Property read [o.name] on a value that is not null or undefined: own
    properties of an object, [undefined] otherwise (none of the names read by
    the handlers is a member of a prototype). *)
Fixpoint own_property (props : list (string * jsval)) (name : string) : jsval :=
  match props with
  | [] => VUndefined
  | (k, v) :: rest => if String.eqb k name then v else own_property rest name
  end.

Definition get_prop (o : jsval) (name : string) : jsval :=
  match o with
  | VObj props => own_property props name
  | _ => VUndefined
  end.

(** Member access [o.name], which throws a TypeError on null and undefined. *)
Definition member (o : jsval) (name : string) : result jsval :=
  match o with
  | VUndefined =>
      Throw ("Cannot read properties of undefined (reading '" +:+ name +:+ "')")
  | VNull =>
      Throw ("Cannot read properties of null (reading '" +:+ name +:+ "')")
  | _ => Ok (get_prop o name)
  end.

(** An optional string ([req.header(name)], [providerConfig.url]) as a value. *)
Definition optional_string (h : option string) : jsval :=
  match h with
  | Some s => VStr s
  | None => VUndefined
  end.

(** *** ToString *)

Fixpoint js_to_string (v : jsval) : string :=
  match v with
  | VUndefined => "undefined"
  | VNull => "null"
  | VBool b => if b then "true" else "false"
  | VNum n => pretty n
  | VStr s => s
  | VArr items =>
      String.concat ","
        (map (fun x => match x with
                       | VUndefined | VNull => ""
                       | _ => js_to_string x
                       end) items)
  | VObj _ => "[object Object]"
  | VArrayBuffer _ => "[object ArrayBuffer]"
  | VBuffer bytes => String.concat "" (map (fun b => String (ascii_of_nat (Z.to_nat b)) "") bytes)
  end.

(** *** JSON.stringify *)

Definition dquote : string := String "034"%char "".
Definition backslash : string := String "092"%char "".

Definition hex_digit (n : nat) : string :=
  String (nth n (list_ascii_of_string "0123456789abcdef") "0"%char) "".

(** One code unit of QuoteJSONString. *)
Definition quote_char (c : ascii) : string :=
  let n := nat_of_ascii c in
  if (n =? 8)%nat then backslash +:+ "b"
  else if (n =? 9)%nat then backslash +:+ "t"
  else if (n =? 10)%nat then backslash +:+ "n"
  else if (n =? 12)%nat then backslash +:+ "f"
  else if (n =? 13)%nat then backslash +:+ "r"
  else if (n =? 34)%nat then backslash +:+ dquote
  else if (n =? 92)%nat then backslash +:+ backslash
  else if (n <? 32)%nat then
    backslash +:+ "u00" +:+ hex_digit (n / 16) +:+ hex_digit (n mod 16)
  else String c "".

Fixpoint quote_body (s : string) : string :=
  match s with
  | EmptyString => ""
  | String c rest => quote_char c +:+ quote_body rest
  end.

Definition quote (s : string) : string := dquote +:+ quote_body s +:+ dquote.

(** SerializeJSONProperty: [None] is JavaScript's [undefined] result.  An
    [ArrayBuffer] has no own enumerable property and no [toJSON], so it is
    serialized as the empty object; a Node [Buffer] has a [toJSON]. *)
Fixpoint stringify (v : jsval) : option string :=
  match v with
  | VUndefined => None
  | VNull => Some "null"
  | VBool b => Some (if b then "true" else "false")
  | VNum n => Some (pretty n)
  | VStr s => Some (quote s)
  | VArr items =>
      Some ("[" +:+
            String.concat ","
              (map (fun x => default "null" (stringify x)) items) +:+
            "]")
  | VObj props =>
      Some ("{" +:+
            String.concat ","
              (omap (fun kv => match kv with
                               | (k, x) =>
                                   match stringify x with
                                   | Some t => Some (quote k +:+ ":" +:+ t)
                                   | None => None
                                   end
                               end) props) +:+
            "}")
  | VArrayBuffer _ => Some "{}"
  | VBuffer bytes =>
      Some ("{" +:+ quote "type" +:+ ":" +:+ quote "Buffer" +:+ "," +:+
            quote "data" +:+ ":[" +:+ String.concat "," (map pretty bytes) +:+ "]}")
  end.

(** [JSON.stringify] of an object literal, which is always a string. *)
Definition stringify_object (props : list (string * jsval)) : string :=
  "{" +:+
  String.concat ","
    (omap (fun kv => match stringify kv.2 with
                     | Some t => Some (quote kv.1 +:+ ":" +:+ t)
                     | None => None
                     end) props) +:+
  "}".


(** [JSON.stringify(v)] where a string is required.  Every value the handlers
    pass here is a decoded JSON document or an object literal, for which
    [stringify] is never [None]; the remaining case is rendered the way
    JavaScript renders [undefined] as a string. *)
Definition stringify_text (v : jsval) : string := default "undefined" (stringify v).

(** Object spread [{...v}] and the property definition that follows it in an
    object literal. *)
Fixpoint indexed (i : Z) (items : list jsval) : list (string * jsval) :=
  match items with
  | [] => []
  | x :: rest => (pretty i, x) :: indexed (i + 1) rest
  end.

Definition spread (v : jsval) : list (string * jsval) :=
  match v with
  | VObj props => props
  | VArr items => indexed 0 items
  | VStr s => indexed 0 (map (fun c => VStr (String c "")) (list_ascii_of_string s))
  | _ => []
  end.

Fixpoint define_property (props : list (string * jsval)) (name : string) (v : jsval)
  : list (string * jsval) :=
  match props with
  | [] => [(name, v)]
  | (k, x) :: rest =>
      if String.eqb k name then (k, v) :: rest
      else (k, x) :: define_property rest name v
  end.

(** ** The cache store ([core/cache.ts]) *)

(** [interface Cacher]: [get] and [set] return promises; the store they act
    on and the clock reading of the call are explicit. *)
Record Cacher (S : Type) : Type := {
  cacher_get : string -> Z -> S -> result (option string) * S;
  cacher_set : string -> string -> Z -> S -> result unit * S;
}.
Arguments cacher_get {S} _ _ _ _.
Arguments cacher_set {S} _ _ _ _.

(** [this.ttl && ...], [value.expires && ...]: a number is truthy when it is
    present and not zero. *)
Definition number_truthy (n : option Z) : bool :=
  match n with
  | Some x => negb (x =? 0)
  | None => false
  end.

Module MemoryCacher.

Record entry : Type := { value : string; expires : option Z }.

Record t : Type := { ttl : option Z; cache : gmap string entry }.

Definition new (ttl : option Z) : t := {| ttl := ttl; cache := ∅ |}.

(** [value.expires && Date.now() > value.expires] *)
Definition expired (now : Z) (e : entry) : bool :=
  number_truthy (expires e) &&
  match expires e with
  | Some x => now >? x
  | None => false
  end.

Definition get (key : string) (now : Z) (this : t) : option string * t :=
  match cache this !! key with
  | None => (None, this)
  | Some v =>
      if expired now v
      then (None, {| ttl := ttl this; cache := delete key (cache this) |})
      else (Some (value v), this)
  end.

Definition set (key val : string) (now : Z) (this : t) : t :=
  {| ttl := ttl this;
     cache :=
       <[key := {| value := val;
                   expires := match ttl this with
                              | Some seconds =>
                                  if number_truthy (Some seconds)
                                  then Some (now + seconds * 1000)
                                  else None
                              | None => None
                              end |}]> (cache this) |}.

(** The body of the [purgeInterval] callback, which runs every
    [purge_period] milliseconds. *)
Definition purge (now : Z) (this : t) : t :=
  {| ttl := ttl this;
     cache := filter (fun kv => expired now kv.2 = false) (cache this) |}.

Definition purge_period : Z := 10000.

(** Operations that may run between a [set] and a later [get]. *)
Inductive op : Type :=
| OpGet (key : string)
| OpSet (key val : string)
| OpPurge.

Definition step (o : op) (now : Z) (this : t) : t :=
  match o with
  | OpGet key => (get key now this).2
  | OpSet key val => set key val now this
  | OpPurge => purge now this
  end.

(** A schedule: operations with the clock reading at which each runs. *)
Fixpoint run_ops (ops : list (op * Z)) (this : t) : t :=
  match ops with
  | [] => this
  | (o, now) :: rest => run_ops rest (step o now this)
  end.

Definition sets_key (key : string) (o : op) : bool :=
  match o with
  | OpSet k _ => String.eqb k key
  | _ => false
  end.

Definition no_set (key : string) (ops : list (op * Z)) : Prop :=
  Forall (fun o => sets_key key o.1 = false) ops.

Definition not_after (now : Z) (ops : list (op * Z)) : Prop :=
  Forall (fun o => o.2 <= now) ops.

Definition cacher : Cacher t :=
  {| cacher_get key now this :=
       let '(v, this') := get key now this in (Ok v, this');
     cacher_set key val now this := (Ok tt, set key val now this) |}.

End MemoryCacher.

Module RedisCacher.

(** The Redis client of [deno.land/x/redis], over a server state [R]. *)
Record Redis (R : Type) : Type := {
  client_get : string -> R -> result (option string) * R;
  client_set : string -> string -> option Z -> R -> result unit * R;
}.
Arguments client_get {R} _ _ _.
Arguments client_set {R} _ _ _ _ _.

(** [redis] is the promise returned by [connect]. *)
Record t (R : Type) : Type := {
  redis : result (Redis R);
  ttl : option Z;
  server : R;
}.
Arguments redis {R} _.
Arguments ttl {R} _.
Arguments server {R} _.

Definition get {R} (key : string) (this : t R) : result (option string) * t R :=
  match redis this with
  | Throw m => (Throw m, this)
  | Ok client =>
      let '(v, srv) := client_get client key (server this) in
      (v, {| redis := redis this; ttl := ttl this; server := srv |})
  end.

Definition set {R} (key val : string) (this : t R) : result unit * t R :=
  match redis this with
  | Throw m => (Throw m, this)
  | Ok client =>
      let '(v, srv) := client_set client key val (ttl this) (server this) in
      (v, {| redis := redis this; ttl := ttl this; server := srv |})
  end.

Definition cacher {R} : Cacher (t R) :=
  {| cacher_get key _ this := get key this;
     cacher_set key val _ this := set key val this |}.

End RedisCacher.

(** ** Requests, responses and the effects of a handler *)

(** [main.ts]: the part of [Config] the handlers read. *)
Inductive provider_type : Type :=
| OpenAI
| AzureOpenAIService
| Anthropic
| Replicate
| Cohere.

Record provider_config : Type := {
  type : provider_type;
  api_key : string;
  url : option string;
}.

Record Config : Type := { providers : gmap string provider_config }.

(** The names every plain object inherits from [Object.prototype] (Deno
    removes [__proto__]); each denotes a function, so it is truthy and has no
    [type] property. *)
Definition Object_prototype_members : list string :=
  [ "constructor"; "hasOwnProperty"; "isPrototypeOf"; "propertyIsEnumerable";
    "toLocaleString"; "toString"; "valueOf"; "__defineGetter__";
    "__defineSetter__"; "__lookupGetter__"; "__lookupSetter__" ]%string.

Inductive provider_slot : Type :=
| OwnProvider (c : provider_config)
| InheritedMember (name : string).

(** [config.providers[provider]]: the key is converted to a string; an own
    property shadows an inherited one; [None] is [undefined].  An inherited
    member is a function: truthy, and its [type] is [undefined]. *)
Definition providers_lookup (config : Config) (provider : jsval) : option provider_slot :=
  let key := js_to_string provider in
  match providers config !! key with
  | Some c => Some (OwnProvider c)
  | None =>
      if bool_decide (key ∈ Object_prototype_members)
      then Some (InheritedMember key)
      else None
  end.

(** The inbound request as the handlers see it: the parsed body
    ([express.json()] yields an object or an array, [multer] an object of
    strings), the three headers they read, and [req.file]. *)
Record request : Type := {
  body : jsval;
  x_provider : option string;
  cache_control : option string;
  azure_openai_deployment_id : option string;
  file : jsval;
}.

Inductive response_body : Type :=
| Json (v : jsval)
| Send (v : jsval).

Record http_response : Type := {
  status : Z;
  response_headers : list (string * string);
  payload : response_body;
}.

Inductive fetch_body : Type :=
| TextBody (text : option string)
| FormData (fields : list (string * jsval)).

Record fetch_init : Type := {
  method : string;
  init_headers : list (string * string);
  init_body : fetch_body;
}.

(** The upstream's answer: status line, body as [resp.text()] returns it, the
    outcome of [resp.json()], and the [Content-Type] header. *)
Record fetch_response : Type := {
  resp_status : Z;
  resp_text : string;
  resp_json : result jsval;
  resp_content_type : option string;
}.

(** [Response.ok] *)
Definition resp_ok (r : fetch_response) : bool :=
  (200 <=? resp_status r) && (resp_status r <=? 299).

Inductive effect : Type :=
| CacheGet (key : string) (answer : result (option string))
| CacheSet (key val : string) (answer : result unit)
| Fetch (target : string) (init : fetch_init) (answer : result fetch_response)
| LogError (message : string)
| Respond (r : http_response).

(** What a handler acts on: the cache store, the headers set on [res] so far
    and the effects performed so far, oldest first. *)
Record world (S : Type) : Type := {
  store : S;
  res_headers : list (string * string);
  trace : list effect;
}.
Arguments store {S} _.
Arguments res_headers {S} _.
Arguments trace {S} _.

(** A computation that threads the world and may throw. *)
Definition M (S A : Type) : Type := world S -> result A * world S.

Definition ret {S A} (a : A) : M S A := fun w => (Ok a, w).

Definition throw {S A} (message : string) : M S A := fun w => (Throw message, w).

Definition bind {S A B} (m : M S A) (k : A -> M S B) : M S B :=
  fun w =>
    match m w with
    | (Ok a, w') => k a w'
    | (Throw e, w') => (Throw e, w')
    end.

Notation "'do' x <- m ; k" := (bind m (fun x => k))
  (at level 10, x name, m at level 100, k at level 200).
Notation "m ;; k" := (bind m (fun _ => k))
  (at level 100, k at level 200, right associativity).

(** [try { m } catch (e) { h e.message }] *)
Definition try_catch {S} (m : M S unit) (h : string -> M S unit) : M S unit :=
  fun w =>
    match m w with
    | (Ok a, w') => (Ok a, w')
    | (Throw e, w') => h e w'
    end.

Definition lift {S A} (r : result A) : M S A := fun w => (r, w).

Definition emit {S} (e : effect) : M S unit :=
  fun w => (Ok tt, {| store := store w; res_headers := res_headers w;
                      trace := trace w ++ [e] |}).

(** [res.header(name, value)] *)
Definition set_header {S} (name value : string) : M S unit :=
  fun w => (Ok tt, {| store := store w;
                      res_headers := res_headers w ++ [(name, value)];
                      trace := trace w |}).

(** [res.status(code).json(v)], [res.json(v)], [res.send(v)] *)
Definition respond {S} (code : Z) (p : response_body) : M S unit :=
  fun w =>
    emit (Respond {| status := code; response_headers := res_headers w;
                     payload := p |}) w.

(** [await cacher.get(key)] *)
Definition await_get {S} (c : Cacher S) (key : string) (now : Z) : M S (option string) :=
  fun w =>
    let '(a, s) := cacher_get c key now (store w) in
    (a, {| store := s; res_headers := res_headers w;
           trace := trace w ++ [CacheGet key a] |}).

(** [cacher?.set(key, value)]: the promise is not awaited, so a rejection
    does not reach the caller. *)
Definition call_set {S} (c : option (Cacher S)) (key val : string) (now : Z) : M S unit :=
  fun w =>
    match c with
    | None => (Ok tt, w)
    | Some c =>
        let '(a, s) := cacher_set c key val now (store w) in
        (Ok tt, {| store := s; res_headers := res_headers w;
                   trace := trace w ++ [CacheSet key val a] |})
    end.

(** [await fetch(url, init)] against the upstream [fetch]. *)
Definition await_fetch {S} (fetch : string -> fetch_init -> result fetch_response)
    (target : string) (init : fetch_init) : M S fetch_response :=
  fun w =>
    let a := fetch target init in
    (a, {| store := store w; res_headers := res_headers w;
           trace := trace w ++ [Fetch target init a] |}).

(** Running a handler on a fresh [res]. *)
Definition run {S} (h : M S unit) (s : S) : result unit * world S :=
  h {| store := s; res_headers := []; trace := [] |}.

(** ** The provider adapters *)

(** The zod schemas the handlers validate with; zod's [parse] itself is
    outside the repository.  A [ZodError]'s message is a JSON text. *)
Inductive schema : Type :=
| OpenAIChatCompletionArgs
| AzureOpenAIChatCompletionArgs
| AzureOpenAIAudioTranscriptionArgs
| AzureOpenAIEmbeddingsArgs.

Section Adapters.

Context {S : Type}.
Variable fetch : string -> fetch_init -> result fetch_response.

(** [integrations/openai.ts] *)
Record OpenAIOpts : Type := { oai_stream : jsval; oai_apiKey : string }.

Definition oai_chatCompletion (opts : OpenAIOpts) (args : jsval) : M S jsval :=
  if truthy (oai_stream opts) then ret VUndefined
  else
    do resp <- await_fetch fetch "https://api.openai.com/v1/chat/completions"
                 {| method := "POST";
                    init_headers :=
                      [("Authorization", "Bearer " +:+ oai_apiKey opts);
                       ("Content-Type", "application/json")];
                    init_body := TextBody (stringify args) |};
    do json <- lift (resp_json resp);
    ret json.

(** [integrations/azure-openai.ts] *)
Record AzureOpenAIOpts : Type := {
  stream : jsval;
  deploymentId : jsval;
  apiKey : string;
  azure_url : jsval;
}.

Definition deployment_url (opts : AzureOpenAIOpts) (operation version : string) : string :=
  js_to_string (azure_url opts) +:+ "/openai/deployments/" +:+
  js_to_string (deploymentId opts) +:+ "/" +:+ operation +:+
  "?api-version=" +:+ version.

(** [opts.stream ?? false] *)
Definition nullish_or (a b : jsval) : jsval :=
  match a with
  | VUndefined | VNull => b
  | _ => a
  end.

(** With [opts.stream] the function returns the [Response] itself, of which
    only the status is kept here; no handler sets [stream]. *)
Definition azoai_chatCompletion (opts : AzureOpenAIOpts) (args : jsval) : M S jsval :=
  do resp <- await_fetch fetch
               (deployment_url opts "chat/completions" "2023-08-01-preview")
               {| method := "POST";
                  init_headers :=
                    [("api-key", apiKey opts);
                     ("Content-Type", "application/json")];
                  init_body :=
                    TextBody
                      (stringify
                         (VObj (define_property (spread args) "stream"
                                  (nullish_or (stream opts) (VBool false))))) |};
  if truthy (stream opts) then
    ret (VObj [("status", VNum (resp_status resp))])
  else
    do json <- lift (resp_json resp);
    ret json.

Definition azoai_audioTranscription (opts : AzureOpenAIOpts) (args : jsval) : M S jsval :=
  let f := get_prop args "file" in
  do originalname <- lift (member f "originalname");
  do mimetype <- lift (member f "mimetype");
  do size <- lift (member f "size");
  do buffer <- lift (member f "buffer");
  do resp <- await_fetch fetch
               (deployment_url opts "audio/transcriptions" "2023-09-01-preview")
               {| method := "POST";
                  init_headers := [("api-key", apiKey opts)];
                  init_body :=
                    FormData
                      (("file",
                        VObj [("buffer", buffer); ("name", originalname);
                              ("type", mimetype)]) ::
                       filter (fun kv => negb (String.eqb kv.1 "file"))
                         (spread args)) |};
  let respData := resp_text resp in
  let respContentType :=
    js_or (optional_string (resp_content_type resp)) (VStr "text/plain") in
  ret (VObj [("data", VStr respData); ("contentType", respContentType)]).

Definition azoai_embeddings (opts : AzureOpenAIOpts) (args : jsval) : M S jsval :=
  do resp <- await_fetch fetch
               (deployment_url opts "embeddings" "2023-08-01-preview")
               {| method := "POST";
                  init_headers :=
                    [("api-key", apiKey opts);
                     ("Content-Type", "application/json")];
                  init_body := TextBody (stringify args) |};
  do json <- lift (resp_json resp);
  ret json.

End Adapters.

(** ** The request handlers ([core/server.ts], [startServer]) *)

Section Server.

Context {S : Type}.

(** Outside the repository: [JSON.parse], zod's [parse], the runtime's
    [fetch] and [crypto.subtle.digest]. *)
Variable JSON_parse : string -> result jsval.
Variable zod_parse : schema -> jsval -> result jsval.
Variable fetch : string -> fetch_init -> result fetch_response.
Variable digest : string -> list Z -> list Z.

(** The module variables [config] and [cacher] ([cacher] is undefined when
    caching is disabled). *)
Variable config : Config.
Variable cacher : option (Cacher S).

(** [data.provider || req.header("X-Provider")] *)
Definition provider_of (req : request) : jsval :=
  js_or (get_prop (body req) "provider") (optional_string (x_provider req)).

(** [req.header("Cache-Control")?.includes("no-cache")] *)
Definition no_cache (req : request) : bool :=
  match cache_control req with
  | Some h => includes h "no-cache"
  | None => false
  end.

(** [req.header("Azure-OpenAI-Deployment-Id") || data.deploymentId] *)
Definition deployment_of (req : request) : jsval :=
  js_or (optional_string (azure_openai_deployment_id req))
        (get_prop (body req) "deploymentId").

(** [JSON.stringify({ provider, data })] *)
Definition cache_key (provider data : jsval) : string :=
  stringify_object [("provider", provider); ("data", data)].

(** [JSON.stringify({ provider, data, fileHash })] *)
Definition file_cache_key (provider data fileHash : jsval) : string :=
  stringify_object [("provider", provider); ("data", data); ("fileHash", fileHash)].

Definition invalid_provider : response_body :=
  Json (VObj [("error", VStr "Invalid provider."); ("source", VStr "proxy")]).

Definition internal_server_error (message : jsval) : response_body :=
  Json (VObj [("error", VStr "Internal server error."); ("message", message);
              ("source", VStr "proxy")]).

Definition azure_opts (c : provider_config) (req : request) : AzureOpenAIOpts :=
  {| stream := VUndefined;
     deploymentId := deployment_of req;
     apiKey := api_key c;
     azure_url := optional_string (url c) |}.

(** The guarded cache lookup shared by the caching handlers: the cached
    text on a hit that is consulted, [None] otherwise. *)
Definition lookup (req : request) (key : string) (now : Z) : M S (option string) :=
  match cacher with
  | Some c =>
      if negb (no_cache req) then
        do cached <- await_get c key now;
        ret (match cached with
             | Some text => if truthy (VStr text) then Some text else None
             | None => None
             end)
      else ret None
  | None => ret None
  end.

(** [app.post("/chat/completion", ...)].  [t_get] and [t_set] are the
    clock readings at the cache read and at the cache write. *)
Definition chat_completion (req : request) (t_get t_set : Z) : M S unit :=
  let data := body req in
  let provider := provider_of req in
  match providers_lookup config provider with
  | None => respond 400 invalid_provider
  | Some providerConfig =>
      try_catch
        (do cached <- lookup req (cache_key provider data) t_get;
         match cached with
         | Some text =>
             set_header "X-Cache-Status" "HIT";;
             do parsed <- lift (JSON_parse text);
             respond 200
               (Json (VObj (define_property (spread parsed) "cached" (VBool true))))
         | None =>
             match providerConfig with
             | OwnProvider c =>
                 match type c with
                 | OpenAI =>
                     if truthy (get_prop data "stream") then ret tt
                     else
                       do args <- lift (zod_parse OpenAIChatCompletionArgs data);
                       do resp <- oai_chatCompletion fetch
                                    {| oai_stream := VUndefined;
                                       oai_apiKey := api_key c |} args;
                       respond 200 (Json resp);;
                       call_set cacher (cache_key provider data)
                         (stringify_text resp) t_set
                 | AzureOpenAIService =>
                     if truthy (get_prop data "stream") then ret tt
                     else
                       do args <- lift (zod_parse AzureOpenAIChatCompletionArgs data);
                       do resp <- azoai_chatCompletion fetch (azure_opts c req) args;
                       respond 200 (Json resp);;
                       call_set cacher (cache_key provider data)
                         (stringify_text resp) t_set
                 | _ => ret tt
                 end
             | InheritedMember _ => ret tt
             end
         end)
        (fun e =>
           emit (LogError e);;
           do message <- lift (JSON_parse e);
           respond 500 (internal_server_error message))
  end.

(** [crypto.subtle.digest("SHA-256", req.file.buffer)]: an [ArrayBuffer]. *)
Definition file_hash (req : request) : M S jsval :=
  do buffer <- lift (member (file req) "buffer");
  match buffer with
  | VBuffer bytes => ret (VArrayBuffer (digest "SHA-256" bytes))
  | VArrayBuffer bytes => ret (VArrayBuffer (digest "SHA-256" bytes))
  | _ => throw "The provided value is not of type '(ArrayBuffer or ArrayBufferView)'"
  end.

(** [{ file: req.file, ...data }] *)
Definition with_file (req : request) : jsval :=
  VObj (fold_left (fun acc kv => define_property acc kv.1 kv.2)
          (spread (body req)) [("file", file req)]).

(** [app.post("/audio/transcriptions", upload.single("file"), ...)] *)
Definition audio_transcriptions (req : request) (t_get t_set : Z) : M S unit :=
  let data := body req in
  let provider := provider_of req in
  match providers_lookup config provider with
  | None => respond 400 invalid_provider
  | Some providerConfig =>
      try_catch
        (do fileHash <- file_hash req;
         do cached <- lookup req (file_cache_key provider data fileHash) t_get;
         match cached with
         | Some text =>
             do resp <- lift (JSON_parse text);
             set_header "X-Cache-Status" "HIT";;
             do contentType <- lift (member resp "contentType");
             set_header "Content-Type" (js_to_string contentType);;
             do sent <- lift (member resp "data");
             respond 200 (Send sent)
         | None =>
             match providerConfig with
             | OwnProvider c =>
                 match type c with
                 | AzureOpenAIService =>
                     do args <- lift (zod_parse AzureOpenAIAudioTranscriptionArgs
                                        (with_file req));
                     do resp <- azoai_audioTranscription fetch (azure_opts c req) args;
                     set_header "Content-Type"
                       (js_to_string (get_prop resp "contentType"));;
                     respond 200 (Send (get_prop resp "data"));;
                     call_set cacher (file_cache_key provider data fileHash)
                       (stringify_text resp) t_set
                 | _ => ret tt
                 end
             | InheritedMember _ => ret tt
             end
         end)
        (fun e =>
           emit (LogError e);;
           respond 500 (internal_server_error (VStr e)))
  end.

(** [app.post("/embeddings", ...)] *)
Definition embeddings (req : request) : M S unit :=
  let data := body req in
  let provider := provider_of req in
  match providers_lookup config provider with
  | None => respond 400 invalid_provider
  | Some providerConfig =>
      try_catch
        (match providerConfig with
         | OwnProvider c =>
             match type c with
             | OpenAI => ret tt
             | AzureOpenAIService =>
                 do args <- lift (zod_parse AzureOpenAIEmbeddingsArgs data);
                 do resp <- azoai_embeddings fetch (azure_opts c req) args;
                 respond 200 (Json resp)
             | _ => ret tt
             end
         | InheritedMember _ => ret tt
         end)
        (fun e =>
           do message <- lift (JSON_parse e);
           respond 500 (internal_server_error message))
  end.

End Server.


(** ** Observations on a trace *)

Definition is_cache_get (e : effect) : bool :=
  match e with CacheGet _ _ => true | _ => false end.

Definition is_cache_set (e : effect) : bool :=
  match e with CacheSet _ _ _ => true | _ => false end.

Definition is_fetch (e : effect) : bool :=
  match e with Fetch _ _ _ => true | _ => false end.

Definition is_respond (e : effect) : bool :=
  match e with Respond _ => true | _ => false end.

Definition count (p : effect -> bool) (tr : list effect) : nat :=
  List.length (List.filter p tr).

(** The responses written to the client, in order. *)
Fixpoint responses (tr : list effect) : list http_response :=
  match tr with
  | [] => []
  | Respond r :: rest => r :: responses rest
  | _ :: rest => responses rest
  end.

(** The keys of all cache reads and writes, in order. *)
Fixpoint cache_keys (tr : list effect) : list string :=
  match tr with
  | [] => []
  | CacheGet key _ :: rest => key :: cache_keys rest
  | CacheSet key _ _ :: rest => key :: cache_keys rest
  | _ :: rest => cache_keys rest
  end.

(** A response is served from the cache when it carries
    [X-Cache-Status: HIT]. *)
Definition served_from_cache (r : http_response) : bool :=
  bool_decide (("X-Cache-Status", "HIT")%string ∈ response_headers r).

(** The adapter's upstream call failed: [fetch] rejected or the body could
    not be decoded. *)
Definition upstream_failed (a : result fetch_response) : Prop :=
  match a with
  | Throw _ => True
  | Ok r => match resp_json r with Throw _ => True | Ok _ => False end
  end.

(** The specification's reading of a cache write: it follows an upstream
    call whose response had a success status. *)
Definition written_only_after_verified_success (tr : list effect) : Prop :=
  forall key val a, In (CacheSet key val a) tr ->
    exists target init r, In (Fetch target init (Ok r)) tr /\ resp_ok r = true.

(** The specification's reading of a request that is refused before any
    input or output: one error response, no cache access, no upstream call. *)
Definition refused_before_io (tr : list effect) : Prop :=
  count is_cache_get tr = 0%nat /\ count is_cache_set tr = 0%nat /\
  count is_fetch tr = 0%nat /\
  exists r, responses tr = [r] /\ status r ≠ 200.

(** The trace of a handler run, and its result. *)
Definition trace_of {S} (h : M S unit) (s : S) : list effect := trace (run h s).2.
Definition store_of {S} (h : M S unit) (s : S) : S := store (run h s).2.

(** ** Concrete configurations, requests and upstreams *)

Module Scenario.

Definition p1 : provider_config :=
  {| type := OpenAI; api_key := "sk-test"; url := None |}.

Definition az : provider_config :=
  {| type := AzureOpenAIService; api_key := "az-test";
     url := Some "https://aigate.openai.azure.com" |}.

Definition config : Config := {| providers := {[ "p1" := p1; "az" := az ]} |}.

Definition messages : jsval :=
  VArr [VObj [("role", VStr "user"); ("content", VStr "hi")]].

(** A chat completion request for [provider], selected by header. *)
Definition chat (provider : string) (fields : list (string * jsval))
    (cache_control : option string) : request :=
  {| body := VObj fields;
     x_provider := Some provider;
     cache_control := cache_control;
     azure_openai_deployment_id := None;
     file := VUndefined |}.

Definition chat_fields : list (string * jsval) :=
  [("model", VStr "gpt-x"); ("messages", messages)].

(** The upload [multer] stores in [req.file]. *)
Definition upload (bytes : list Z) : jsval :=
  VObj [("fieldname", VStr "file"); ("originalname", VStr "a.wav");
        ("encoding", VStr "7bit"); ("mimetype", VStr "audio/wav");
        ("buffer", VBuffer bytes); ("size", VNum (Z.of_nat (List.length bytes)))].

Definition transcription (bytes : list Z) : request :=
  {| body := VObj [("language", VStr "en")];
     x_provider := Some "az";
     cache_control := None;
     azure_openai_deployment_id := Some "whisper";
     file := upload bytes |}.

(** A validator that accepts its input unchanged, as zod does for a payload
    that has exactly the fields of the schema, in the schema's order. *)
Definition accept (_ : schema) (v : jsval) : result jsval := Ok v.

(** [JSON.parse] on the given texts; any other text used below is not JSON. *)
Definition parse_table (table : list (string * jsval)) (text : string) : result jsval :=
  match List.find (fun kv => String.eqb kv.1 text) table with
  | Some kv => Ok kv.2
  | None => Throw "Unexpected token in JSON"
  end.

(** An upstream that answers every call the same way. *)
Definition upstream (answer : result fetch_response)
  : string -> fetch_init -> result fetch_response := fun _ _ => answer.

Definition completion_body : jsval :=
  VObj [("id", VStr "chatcmpl-1"); ("object", VStr "chat.completion")].

Definition answer_ok : result fetch_response :=
  Ok {| resp_status := 200; resp_text := stringify_text completion_body;
        resp_json := Ok completion_body;
        resp_content_type := Some "application/json" |}.

Definition unauthorized : jsval :=
  VObj [("error", VObj [("message", VStr "Incorrect API key provided");
                        ("code", VStr "invalid_api_key")])].

Definition answer_unauthorized : result fetch_response :=
  Ok {| resp_status := 401; resp_text := stringify_text unauthorized;
        resp_json := Ok unauthorized;
        resp_content_type := Some "application/json" |}.

Definition answer_transcript (text : string) : result fetch_response :=
  Ok {| resp_status := 200; resp_text := text;
        resp_json := Throw "Unexpected token in JSON";
        resp_content_type := Some "text/plain" |}.

(** A digest that keeps its input, so that distinct inputs have distinct
    digests. *)
Definition sha (_ : string) (bytes : list Z) : list Z := bytes.

Definition azure_fields : list (string * jsval) := [("messages", messages)].

(** A [JSON.parse] that decodes the cached completion. *)
Definition parse_completion : string -> result jsval :=
  parse_table [(stringify_text completion_body, completion_body)].

(** The entry the transcription handler caches for the transcript
    ["first"], and a [JSON.parse] that decodes it. *)
Definition transcript : jsval :=
  VObj [("data", VStr "first"); ("contentType", VStr "text/plain")].

Definition parse_transcript : string -> result jsval :=
  parse_table [(stringify_text transcript, transcript)].

(** The in-process cacher with a [set] that rejects. *)
Definition memory_failing_set : Cacher MemoryCacher.t :=
  {| cacher_get := cacher_get MemoryCacher.cacher;
     cacher_set _ _ _ this := (Throw "Out of memory", this) |}.

(** A Redis cacher whose connection attempt was rejected. *)
Definition redis_down : RedisCacher.t unit :=
  {| RedisCacher.redis := Throw "Connection refused (os error 111)";
     RedisCacher.ttl := Some 60;
     RedisCacher.server := tt |}.

End Scenario.

(** ** Choosing the cache store ([getCacher], [main.ts]) *)

Inductive storage_kind : Type :=
| StorageRedis
| StorageMemory.

(** [config.cache] *)
Record cache_config : Type := {
  enabled : bool;
  cache_ttl : option Z;
  storage : storage_kind;
  hostname : option string;
  port : option Z;
  username : option string;
  password : option string;
  tls : option bool;
}.

(** The refinement [ConfigSchema] puts on [cache]: Redis needs a hostname
    and a port that are not [undefined]. *)
Definition cache_refine (c : cache_config) : bool :=
  match storage c with
  | StorageRedis => bool_decide (hostname c ≠ None) && bool_decide (port c ≠ None)
  | StorageMemory => true
  end.

(** The options [RedisCacher]'s constructor passes to [connect]. *)
Record connect_options : Type := {
  co_hostname : string;
  co_port : Z;
  co_username : option string;
  co_password : option string;
  co_tls : option bool;
}.

(** [...(x && { x: x })] for an optional string. *)
Definition when_truthy (x : option string) : option string :=
  match x with
  | Some s => if truthy (VStr s) then Some s else None
  | None => None
  end.

Inductive cacher_instance (R : Type) : Type :=
| InMemory (m : MemoryCacher.t)
| InRedis (r : RedisCacher.t R).
Arguments InMemory {R} m.
Arguments InRedis {R} r.

Section GetCacher.

Context {R : Type}.

(** [connect] of the Redis client library, and the server it connects to. *)
Variable connect : connect_options -> result (RedisCacher.Redis R).
Variable server : R.

Definition getCacher (cache : option cache_config) : result (cacher_instance R) :=
  match cache with
  | Some c =>
      match storage c with
      | StorageRedis =>
          match hostname c, port c with
          | Some h, Some p =>
              if negb (truthy (VStr h)) || negb (number_truthy (Some p))
              then Throw "Hostname and port are required for Redis cache storage."
              else
                Ok (InRedis
                      {| RedisCacher.redis :=
                           connect {| co_hostname := h; co_port := p;
                                      co_username := when_truthy (username c);
                                      co_password := when_truthy (password c);
                                      co_tls := match tls c with
                                                | Some true => Some true
                                                | _ => None
                                                end |};
                         RedisCacher.ttl := cache_ttl c;
                         RedisCacher.server := server |})
          | _, _ => Throw "Hostname and port are required for Redis cache storage."
          end
      | StorageMemory => Ok (InMemory (MemoryCacher.new (cache_ttl c)))
      end
  | None => Ok (InMemory (MemoryCacher.new None))
  end.

(** [if (config.cache?.enabled) cacher = getCacher(config)] in
    [startServer]; [None] leaves [cacher] undefined. *)
Definition start_cacher (cache : option cache_config)
  : result (option (cacher_instance R)) :=
  match cache with
  | Some c =>
      if enabled c
      then match getCacher cache with
           | Ok i => Ok (Some i)
           | Throw e => Throw e
           end
      else Ok None
  | None => Ok None
  end.

End GetCacher.

(** ** Authentication ([startServer]) *)





(** ** More of the Azure adapter and of the handlers *)

Section MoreAdapters.

Context {S : Type}.
Variable fetch : string -> fetch_init -> result fetch_response.

(** [audioTranslation] of [integrations/azure-openai.ts] *)
Definition azoai_audioTranslation (opts : AzureOpenAIOpts) (args : jsval) : M S jsval :=
  let f := get_prop args "file" in
  do originalname <- lift (member f "originalname");
  do mimetype <- lift (member f "mimetype");
  do size <- lift (member f "size");
  do buffer <- lift (member f "buffer");
  do resp <- await_fetch fetch
               (deployment_url opts "audio/translations" "2023-09-01-preview")
               {| method := "POST";
                  init_headers := [("api-key", apiKey opts)];
                  init_body :=
                    FormData
                      (("file",
                        VObj [("buffer", buffer); ("name", originalname);
                              ("type", mimetype)]) ::
                       filter (fun kv => negb (String.eqb kv.1 "file"))
                         (spread args)) |};
  let respData := resp_text resp in
  let respContentType :=
    js_or (optional_string (resp_content_type resp)) (VStr "text/plain") in
  ret (VObj [("data", VStr respData); ("contentType", respContentType)]).

End MoreAdapters.

Section MoreHandlers.

Context {S : Type}.
Variable fetch : string -> fetch_init -> result fetch_response.
Variable config : Config.

(** zod's [parse] for [AzureOpenAIAudioTranslationArgs]. *)
Variable parse_translation_args : jsval -> result jsval.

(** [app.post("/audio/translations", upload.single("file"), ...)] *)
Definition audio_translations (req : request) : M S unit :=
  let data := body req in
  let provider := provider_of req in
  match providers_lookup config provider with
  | None => respond 400 invalid_provider
  | Some providerConfig =>
      try_catch
        (match providerConfig with
         | OwnProvider c =>
             match type c with
             | AzureOpenAIService =>
                 do args <- lift (parse_translation_args (with_file req));
                 do resp <- azoai_audioTranslation fetch (azure_opts c req) args;
                 set_header "Content-Type"
                   (js_to_string (get_prop resp "contentType"));;
                 respond 200 (Send (get_prop resp "data"))
             | _ => ret tt
             end
         | InheritedMember _ => ret tt
         end)
        (fun e => respond 500 (internal_server_error (VStr e)))
  end.

End MoreHandlers.

(** ** Image generation ([imageGeneration] of [integrations/azure-openai.ts]) *)

Section ImageGeneration.

Context {S : Type}.

(** The upstream as a sequence: [upstream n] answers the call made after [n]
    earlier ones.  [statusText] is [Response.statusText]. *)
Variable upstream : nat -> string -> fetch_init -> result fetch_response.
Variable statusText : fetch_response -> string.

(** The number of upstream calls made so far. *)
Definition calls (w : world S) : nat := count is_fetch (trace w).

Definition fetch_next (target : string) (init : fetch_init) : M S fetch_response :=
  fun w => await_fetch (upstream (calls w)) target init w.

(** [a === "text"] *)
Definition is_string (a : jsval) (text : string) : bool :=
  match a with
  | VStr s => String.eqb s text
  | _ => false
  end.

(** The [while (!success && tries < 10)] loop, with [tries_left] the
    iterations that remain, and the statement after it.  The one-second wait
    between two polls is not represented. *)
Fixpoint poll_result (tries_left : nat) (opts : AzureOpenAIOpts) (json : jsval)
  : M S jsval :=
  match tries_left with
  | O => throw "Azure OpenAI image generation timed out after 10 tries"
  | Datatypes.S n =>
      do id <- lift (member json "id");
      do resultResp <- fetch_next
                         (js_to_string (azure_url opts) +:+
                          "/openai/operations/images/" +:+ js_to_string id +:+
                          "?api-version=2023-08-01-preview")
                         {| method := "GET";
                            init_headers := [("api-key", apiKey opts)];
                            init_body := TextBody None |};
      do resultJson <- lift (resp_json resultResp);
      do status <- lift (member resultJson "status");
      if is_string status "succeeded" then ret (get_prop resultJson "result")
      else if is_string status "failed" || is_string status "canceled" ||
              is_string status "deleted" then
        do message <- lift (member (get_prop resultJson "error") "message");
        throw ("Azure OpenAI image generation failed: " +:+ js_to_string message)
      else poll_result n opts json
  end.

Definition max_tries : nat := 10.

(** The call made after [n] earlier ones is answered with a status document
    that reports neither success nor failure. *)
Definition pending_at (n : nat) : Prop :=
  exists r j st,
    (forall target init, upstream n target init = Ok r) /\
    resp_json r = Ok j /\ member j "status" = Ok st /\
    is_string st "succeeded" = false /\ is_string st "failed" = false /\
    is_string st "canceled" = false /\ is_string st "deleted" = false.

Definition azoai_imageGeneration (opts : AzureOpenAIOpts) (args : jsval) : M S jsval :=
  do resp <- fetch_next
               (js_to_string (azure_url opts) +:+
                "/openai/images/generations:submit?api-version=2023-08-01-preview")
               {| method := "POST";
                  init_headers :=
                    [("api-key", apiKey opts); ("Content-Type", "application/json")];
                  init_body := TextBody (stringify args) |};
  if negb (resp_ok resp) then
    throw ("Received non-OK response from Azure OpenAI image generation: " +:+
           pretty (resp_status resp) +:+ " " +:+ statusText resp)
  else
    do json <- lift (resp_json resp);
    poll_result max_tries opts json.

End ImageGeneration.

(** The content type the audio adapters report for an upstream answer. *)
Definition reported_content_type (r : fetch_response) : string :=
  match resp_content_type r with
  | Some h => if String.eqb h "" then "text/plain" else h
  | None => "text/plain"
  end.

(** The entry the transcription handler stores. *)
Definition transcript_entry (text content_type : string) : jsval :=
  VObj [("data", VStr text); ("contentType", VStr content_type)].


(** ** Reading a quoted string back

    An inverse of [quote_char], one code unit at a time.  It is not part of
    the program: it is what shows that quoting loses nothing. *)

Fixpoint index_of (c : ascii) (digits : list ascii) : option nat :=
  match digits with
  | [] => None
  | d :: rest => if Ascii.eqb d c then Some 0%nat else Datatypes.S <$> index_of c rest
  end.

Definition hex_value (c : ascii) : option nat :=
  index_of c (list_ascii_of_string "0123456789abcdef").

(** The code unit that [quote_char] wrote at the head of [s], and what
    follows it; [None] at the closing quote or on text [quote_char] never
    writes. *)
Definition unquote_char (s : string) : option (ascii * string) :=
  match s with
  | EmptyString => None
  | String c rest =>
      if Ascii.eqb c "092" then
        match rest with
        | String x rest' =>
            if Ascii.eqb x "b" then Some ("008"%char, rest')
            else if Ascii.eqb x "t" then Some ("009"%char, rest')
            else if Ascii.eqb x "n" then Some ("010"%char, rest')
            else if Ascii.eqb x "f" then Some ("012"%char, rest')
            else if Ascii.eqb x "r" then Some ("013"%char, rest')
            else if Ascii.eqb x "034" then Some ("034"%char, rest')
            else if Ascii.eqb x "092" then Some ("092"%char, rest')
            else if Ascii.eqb x "u" then
              match rest' with
              | String _ (String _ (String h (String l tail))) =>
                  match hex_value h, hex_value l with
                  | Some a, Some b => Some (ascii_of_nat (16 * a + b), tail)
                  | _, _ => None
                  end
              | _ => None
              end
            else None
        | EmptyString => None
        end
      else if Ascii.eqb c "034" then None
      else Some (c, rest)
  end.

(** The form fields of a [multer] body: every value is a string. *)
Definition form_fields (fields : list (string * string)) : jsval :=
  VObj (map (fun kv => (kv.1, VStr kv.2)) fields).

(** The text [JSON.stringify] writes for one form field. *)
Definition field_text (kv : string * string) : string :=
  quote kv.1 +:+ ":" +:+ quote kv.2.


(** ** More concrete configurations and upstreams *)

Module MoreScenario.
Import Scenario.

Definition redis_config : cache_config :=
  {| enabled := true; cache_ttl := Some 60; storage := StorageRedis;
     hostname := Some "localhost"; port := Some 6379;
     username := None; password := None; tls := None |}.

(** Accepted by the schema, refused by [getCacher]. *)
Definition redis_port_zero : cache_config :=
  {| enabled := true; cache_ttl := Some 60; storage := StorageRedis;
     hostname := Some "localhost"; port := Some 0;
     username := None; password := None; tls := None |}.

Definition refuses : connect_options -> result (RedisCacher.Redis unit) :=
  fun _ => Throw "Connection refused (os error 111)".


Definition image_opts : AzureOpenAIOpts :=
  {| stream := VUndefined; deploymentId := VUndefined; apiKey := "az-test";
     azure_url := VStr "https://aigate.openai.azure.com" |}.

Definition json_answer (code : Z) (document : jsval) : result fetch_response :=
  Ok {| resp_status := code; resp_text := stringify_text document;
        resp_json := Ok document;
        resp_content_type := Some "application/json" |}.

Definition submitted : jsval := VObj [("id", VStr "op-1"); ("status", VStr "notRunning")].
Definition running : jsval := VObj [("id", VStr "op-1"); ("status", VStr "running")].
Definition images : jsval := VObj [("data", VArr [VObj [("url", VStr "https://img/1.png")]])].
Definition succeeded : jsval :=
  VObj [("id", VStr "op-1"); ("status", VStr "succeeded"); ("result", images)].

(** Accepted, pending twice, then done. *)
Definition image_upstream (n : nat) : string -> fetch_init -> result fetch_response :=
  fun _ _ =>
    match n with
    | 0%nat => json_answer 202 submitted
    | 1%nat | 2%nat => json_answer 200 running
    | _ => json_answer 200 succeeded
    end.

(** Accepted, then pending for ever. *)
Definition image_never_ready (n : nat) : string -> fetch_init -> result fetch_response :=
  fun _ _ =>
    match n with
    | 0%nat => json_answer 202 submitted
    | _ => json_answer 200 running
    end.

Definition image_rejected (_ : nat) : string -> fetch_init -> result fetch_response :=
  fun _ _ => json_answer 401 unauthorized.

Definition status_text (r : fetch_response) : string :=
  if resp_status r =? 401 then "Unauthorized" else "OK".

Definition image_args : jsval := VObj [("prompt", VStr "a lighthouse")].

(** Validators that reject every payload with a [ZodError]. *)
Definition zod_message : string :=
  stringify_text (VArr [VObj [("code", VStr "invalid_type"); ("message", VStr "Required")]]).

Definition reject (_ : schema) (_ : jsval) : result jsval := Throw zod_message.


(** An in-process store that already holds the completion of the chat
    request. *)
Definition warm : MemoryCacher.t :=
  MemoryCacher.set (cache_key (VStr "p1") (VObj chat_fields))
    (stringify_text completion_body) 500 (MemoryCacher.new (Some 60)).

Definition translation : request :=
  {| body := VObj [("prompt", VStr "hello")];
     x_provider := Some "az";
     cache_control := None;
     azure_openai_deployment_id := Some "whisper";
     file := upload [1; 2; 3] |}.

Definition embedding : request :=
  {| body := VObj [("input", VStr "hello")];
     x_provider := Some "az";
     cache_control := None;
     azure_openai_deployment_id := Some "ada";
     file := VUndefined |}.

(** An upstream failure reported as text, with an empty content type. *)
Definition plain_answer : fetch_response :=
  {| resp_status := 500; resp_text := "upstream is down";
     resp_json := Throw "Unexpected token in JSON"; resp_content_type := Some "" |}.

End MoreScenario.


(** * Facts about serialization *)

Lemma stringify_VObj props : stringify (VObj props) = Some (stringify_object props).
Proof.
  unfold stringify_object.
  change (stringify (VObj props)) with
    (Some ("{" +:+
           String.concat ","
             (omap (fun kv : string * jsval =>
                      let (k, x) := kv in
                      match stringify x with
                      | Some t => Some (quote k +:+ ":" +:+ t)
                      | None => None
                      end) props) +:+ "}")).
  do 4 f_equal.
  induction props as [|[k x] rest IH]; [done|].
  cbn [omap list_omap fst snd]. destruct (stringify x); by rewrite IH.
Qed.

(** * Properties of the cache store *)

Module MemoryCacherFacts.
Import MemoryCacher.

Lemma step_ttl o now this : ttl (step o now this) = ttl this.
Proof.
  destruct o; simpl; try done.
  unfold get. destruct (cache this !! key); [|done].
  by destruct (expired now e).
Qed.

Lemma run_ops_ttl ops this : ttl (run_ops ops this) = ttl this.
Proof.
  revert this. induction ops as [|[o now] rest IH]; intros this; simpl; [done|].
  by rewrite IH, step_ttl.
Qed.

Lemma get_cache_other key k now this :
  k ≠ key -> cache (get key now this).2 !! k = cache this !! k.
Proof.
  intros Hne. unfold get. destruct (cache this !! key); [|done].
  destruct (expired now e); simpl; [|done].
  by rewrite lookup_delete_ne.
Qed.

(** An entry that has not expired survives every operation that does not
    overwrite it. *)
Lemma step_keeps_live key e o now this :
  sets_key key o = false ->
  expired now e = false ->
  cache this !! key = Some e ->
  cache (step o now this) !! key = Some e.
Proof.
  intros Hset Hlive Hin. destruct o as [k|k v|]; simpl in *.
  - destruct (decide (k = key)) as [->|Hne].
    + unfold get. rewrite Hin, Hlive. done.
    + by rewrite get_cache_other.
  - apply String.eqb_neq in Hset. by rewrite lookup_insert_ne.
  - apply map_lookup_filter_Some. done.
Qed.

(** Without a [set], an entry can only stay as it is or disappear. *)
Lemma step_keeps_or_drops key e o now this :
  sets_key key o = false ->
  cache this !! key = Some e \/ cache this !! key = None ->
  cache (step o now this) !! key = Some e \/ cache (step o now this) !! key = None.
Proof.
  intros Hset Hin. destruct o as [k|k v|]; simpl in *.
  - destruct (decide (k = key)) as [->|Hne].
    + unfold get. destruct (cache this !! key) as [e'|] eqn:E; [|by right].
      destruct (expired now e'); simpl; [right; apply lookup_delete_eq|].
      by rewrite E.
    + by rewrite get_cache_other.
  - apply String.eqb_neq in Hset. by rewrite lookup_insert_ne.
  - destruct (filter _ (cache this) !! key) as [e'|] eqn:E; [|by right].
    apply map_lookup_filter_Some in E as [E _].
    destruct Hin as [Hin|Hin]; rewrite Hin in E; [left|]; congruence.
Qed.

Lemma expired_mono e now now' :
  now <= now' -> expired now' e = false -> expired now e = false.
Proof.
  unfold expired. destruct (expires e) as [x|]; simpl; [|done].
  destruct (x =? 0); simpl; [done|]. lia.
Qed.

Lemma run_ops_keeps_live key e ops now this :
  no_set key ops -> not_after now ops ->
  expired now e = false ->
  cache this !! key = Some e ->
  cache (run_ops ops this) !! key = Some e.
Proof.
  revert this. induction ops as [|[o t0] rest IH]; intros this Hset Htime Hlive Hin;
    simpl; [done|].
  inversion Hset; inversion Htime; subst; simpl in *.
  apply IH; try done.
  apply step_keeps_live; try done.
  by apply (expired_mono e t0 now).
Qed.

Lemma run_ops_keeps_or_drops key e ops this :
  no_set key ops ->
  cache this !! key = Some e \/ cache this !! key = None ->
  cache (run_ops ops this) !! key = Some e \/ cache (run_ops ops this) !! key = None.
Proof.
  revert this. induction ops as [|[o t0] rest IH]; intros this Hset Hin; simpl; [done|].
  inversion Hset; subst; simpl in *.
  apply IH; [done|]. by apply step_keeps_or_drops.
Qed.

End MemoryCacherFacts.

Module MemoryCacherSpec.
Import MemoryCacher MemoryCacherFacts.

(** C10: [get] on an expired entry deletes it; [get] on a live or absent key
    changes nothing; entries under other keys are never touched. *)
Theorem get_frame (key : string) (now : Z) (this : t) :
  (forall k, k ≠ key -> cache (get key now this).2 !! k = cache this !! k) /\
  ttl (get key now this).2 = ttl this /\
  match cache this !! key with
  | Some e =>
      if expired now e
      then (get key now this).1 = None /\
           cache (get key now this).2 = delete key (cache this) /\
           cache (get key now this).2 !! key = None
      else (get key now this).1 = Some (value e) /\ (get key now this).2 = this
  | None => (get key now this).1 = None /\ (get key now this).2 = this
  end.
Proof.
  split; [intros k Hne; by apply get_cache_other|].
  unfold get. destruct (cache this !! key) as [e|] eqn:E; simpl.
  - destruct (expired now e); simpl; [|done].
    repeat split; try done. apply lookup_delete_eq.
  - done.
Qed.

(** C5: with a TTL of [T] seconds, a value set at [now0] is returned by every
    [get] up to [now0 + T * 1000] ms and is absent strictly after, whether
    or not the entry is still in the map; without a TTL (absent or zero) it
    never expires.  Other operations may run in between, as long as none
    sets the key again. *)
Theorem ttl_expiry (this : t) (key val : string) (now0 now : Z) (ops : list (op * Z)) :
  no_set key ops ->
  let this' := run_ops ops (set key val now0 this) in
  (forall T, ttl this = Some T -> 0 < T -> 0 <= now0 ->
     (now <= now0 + T * 1000 -> not_after now ops ->
        (get key now this').1 = Some val) /\
     (now0 + T * 1000 < now -> (get key now this').1 = None)) /\
  (number_truthy (ttl this) = false -> (get key now this').1 = Some val).
Proof.
  intros Hset this'. split.
  - intros T HT Hpos Hnow0.
    set (e := {| value := val; expires := Some (now0 + T * 1000) |}).
    assert (Hin : cache (set key val now0 this) !! key = Some e).
    { unfold set; simpl. rewrite HT; simpl.
      replace (T =? 0) with false by lia. simpl. apply lookup_insert_eq. }
    split.
    + intros Hle Htime.
      assert (Hlive : expired now e = false).
      { unfold expired; simpl. apply andb_false_iff. right. lia. }
      pose proof (run_ops_keeps_live key e ops now _ Hset Htime Hlive Hin) as H.
      subst this'. unfold get. rewrite H, Hlive. done.
    + intros Hlt.
      assert (Hdead : expired now e = true).
      { unfold expired; simpl. apply andb_true_iff. split; [|lia].
        apply negb_true_iff. lia. }
      destruct (run_ops_keeps_or_drops key e ops _ Hset (or_introl Hin)) as [H|H];
        subst this'; unfold get; rewrite H; [by rewrite Hdead|done].
  - intros Hno.
    set (e := {| value := val; expires := None |}).
    assert (Hin : cache (set key val now0 this) !! key = Some e).
    { unfold set; simpl. destruct (ttl this) as [T|]; simpl in *.
      - rewrite Hno. apply lookup_insert_eq.
      - apply lookup_insert_eq. }
    assert (Hlive : forall t0, expired t0 e = false) by done.
    assert (H : cache this' !! key = Some e).
    { clear -Hset Hin Hlive. subst this'. revert Hin. generalize (set key val now0 this).
      induction ops as [|[o t0] rest IH]; intros this0 Hin; simpl; [done|].
      inversion Hset; subst. apply IH; [done|].
      by apply step_keeps_live. }
    unfold get. rewrite H, Hlive. done.
Qed.

Lemma ttl_expiry_witness :
  let ops := [(OpPurge, 30000); (OpGet "k", 40000); (OpSet "other" "w", 50000)] in
  let this' := run_ops ops (set "k" "v" 1000 (new (Some 60))) in
  (get "k" 61000 this').1 = Some "v" /\ (get "k" 61001 this').1 = None.
Proof.
  intros ops this'.
  assert (Hset : no_set "k" ops) by (repeat constructor).
  split.
  - apply (proj1 (proj1 (ttl_expiry (new (Some 60)) "k" "v" 1000 61000 ops Hset)
                    60 eq_refl ltac:(lia) ltac:(lia))).
    + lia.
    + repeat constructor; simpl; lia.
  - apply (proj2 (proj1 (ttl_expiry (new (Some 60)) "k" "v" 1000 61001 ops Hset)
                    60 eq_refl ltac:(lia) ltac:(lia))).
    lia.
Defined.

Lemma get_frame_witness :
  let this := set "a" "1" 0 (set "b" "2" 0 (new (Some 1))) in
  cache (get "a" 5000 this).2 !! "b" = cache this !! "b" /\
  ((get "a" 5000 this).1 = None /\
   cache (get "a" 5000 this).2 = delete "a" (cache this) /\
   cache (get "a" 5000 this).2 !! "a" = None).
Proof.
  intros this. split.
  - apply (proj1 (get_frame "a" 5000 this) "b"). discriminate.
  - exact (proj2 (proj2 (get_frame "a" 5000 this))).
Defined.

End MemoryCacherSpec.

(** * Properties of the request handlers *)

Ltac unfold_handler :=
  unfold trace_of, store_of, run, chat_completion, audio_transcriptions, embeddings,
    lookup, file_hash, try_catch, oai_chatCompletion, azoai_chatCompletion,
    azoai_audioTranscription, azoai_embeddings, bind, ret, throw, lift, emit,
    respond, set_header, await_get, call_set, await_fetch in *.

#[local] Arguments stringify : simpl never.
#[local] Arguments stringify_text : simpl never.
#[local] Arguments stringify_object : simpl never.
#[local] Arguments js_to_string : simpl never.
#[local] Arguments define_property : simpl never.
#[local] Arguments spread : simpl never.
#[local] Arguments includes : simpl never.
#[local] Arguments truthy : simpl nomatch.
#[local] Arguments get_prop : simpl nomatch.
#[local] Arguments member : simpl nomatch.
#[local] Arguments js_or : simpl nomatch.

(** Case analysis on the innermost scrutinee that is stuck. *)
Ltac destruct_atom :=
  match goal with
  | |- context [match ?x with _ => _ end] =>
      lazymatch x with
      | context [match _ with _ => _ end] => fail
      | _ => destruct x eqn:?
      end
  end.

Ltac handler_cases := simpl; repeat (destruct_atom; simpl).

(** Membership in a trace that has been computed. *)
Ltac in_trace :=
  simpl; intuition (simplify_eq; try reflexivity; try done).

Ltac in_cases H :=
  simpl in H; repeat (destruct H as [H|H]);
  try discriminate H; try contradiction; simplify_eq.

Section ServerFacts.

Context {S : Type}.
Variable JSON_parse : string -> result jsval.
Variable zod_parse : schema -> jsval -> result jsval.
Variable fetch : string -> fetch_init -> result fetch_response.
Variable config : Config.
Variable cacher : option (Cacher S).

(** C4: a request whose [Cache-Control] header contains [no-cache] performs
    no cache read and is never answered from the cache; when the provider is
    configured with a supported type, the request is not a streaming one and
    its payload validates, the adapter's upstream call is made exactly once,
    whatever the cache holds.  Apart from the final cache write, the request
    is handled exactly as it is when caching is disabled. *)
Theorem no_cache_bypass (req : request) (t_get t_set : Z) (s : S) :
  no_cache req = true ->
  let tr := trace_of
              (chat_completion JSON_parse zod_parse fetch config cacher req t_get t_set) s in
  count is_cache_get tr = 0%nat /\
  (forall r, In (Respond r) tr -> served_from_cache r = false) /\
  (forall c args,
     providers config !! js_to_string (provider_of req) = Some c ->
     truthy (get_prop (body req) "stream") = false ->
     (type c = OpenAI /\ zod_parse OpenAIChatCompletionArgs (body req) = Ok args \/
      type c = AzureOpenAIService /\
      zod_parse AzureOpenAIChatCompletionArgs (body req) = Ok args) ->
     count is_fetch tr = 1%nat) /\
  List.filter (fun e => negb (is_cache_set e)) tr =
  trace_of (chat_completion JSON_parse zod_parse fetch config None req t_get t_set) s.
Proof.
  intros Hnc tr. subst tr. unfold_handler. unfold providers_lookup.
  rewrite Hnc. simpl.
  split; [|split; [|split]].
  - handler_cases; reflexivity.
  - handler_cases; intros ?; in_trace.
  - intros c args Hc Hstream Hok. rewrite Hc. simpl. rewrite Hstream.
    destruct Hok as [[Ht Hz]|[Ht Hz]]; rewrite Ht, Hz; simpl;
      handler_cases; reflexivity.
  - handler_cases; reflexivity.
Qed.


(** A provider name that is neither configured nor inherited is rejected
    with the 400 "Invalid provider." envelope and nothing else happens. *)
Lemma unknown_provider_rejected (req : request) (t_get t_set : Z) (s : S) :
  providers_lookup config (provider_of req) = None ->
  run (chat_completion JSON_parse zod_parse fetch config cacher req t_get t_set) s =
  (Ok tt,
   {| store := s; res_headers := [];
      trace := [Respond {| status := 400; response_headers := [];
                           payload := invalid_provider |}] |}).
Proof. intros H. unfold run, chat_completion. rewrite H. reflexivity. Qed.

(** C1, as the code has it: a cache write happens only after the adapter's
    upstream call returned and its body was decoded, it stores that body
    under the request's key, and when the upstream call fails nothing is
    written: the store is left as the cache read, if any, left it.  The
    status of the upstream response is not inspected. *)
Theorem cache_write_follows_adapter_return (req : request) (t_get t_set : Z) (s : S) :
  let tr := trace_of
              (chat_completion JSON_parse zod_parse fetch config cacher req t_get t_set) s in
  (forall key val a, In (CacheSet key val a) tr ->
     key = cache_key (provider_of req) (body req) /\
     exists pre post target init r json,
       tr = pre ++ Fetch target init (Ok r) :: post /\
       In (CacheSet key val a) post /\
       resp_json r = Ok json /\ val = stringify_text json) /\
  (forall target init a, In (Fetch target init a) tr -> upstream_failed a ->
     count is_cache_set tr = 0%nat) /\
  (count is_cache_set tr = 0%nat ->
   let s' := store_of
               (chat_completion JSON_parse zod_parse fetch config cacher req t_get t_set) s in
   s' = s \/
   exists c, cacher = Some c /\
             s' = (cacher_get c (cache_key (provider_of req) (body req)) t_get s).2).
Proof.
  intros tr. subst tr. unfold_handler. unfold providers_lookup. split; [|split].
  - handler_cases; intros key val ans Hin; in_cases Hin;
      (split; [reflexivity|]);
      let finish := (do 5 eexists; (split; [reflexivity|]); simpl; eauto 10) in
      first [ solve [exists []; finish]
            | solve [eexists [_]; finish]
            | solve [eexists [_; _]; finish] ].
  - handler_cases; intros target init ans Hin Hfail; in_cases Hin;
      simpl in Hfail;
      repeat match goal with
             | H : resp_json _ = _ |- _ => rewrite H in Hfail
             end; done.
  - handler_cases; intros Hcount; try discriminate Hcount;
      first [ left; reflexivity
            | right; eexists; split; [reflexivity|];
              match goal with H : cacher_get _ _ _ _ = _ |- _ => rewrite H end;
              reflexivity ].
Qed.

(** C2, as the code has it: every cache access of the handler uses the
    serialization of [{ provider, data }], so two runs on requests with the
    same provider and the same payload (fields in the same order) use the
    same key, whatever the configuration, the cache contents, the clock or
    the upstream. *)
Theorem cache_key_deterministic (req : request) (t_get t_set : Z) (s : S) :
  Forall (eq (cache_key (provider_of req) (body req)))
    (cache_keys
       (trace_of
          (chat_completion JSON_parse zod_parse fetch config cacher req t_get t_set) s)).
Proof.
  unfold_handler. unfold providers_lookup.
  handler_cases; repeat constructor.
Qed.

(** C6, as the code has it: a failing [set] is not observable in the
    response, and a failing [get] is caught by the handler's [catch]: the
    provider is not called, nothing is cached and no successful response is
    sent. *)
Theorem cache_failures (req : request) (t_get t_set : Z) (s : S) :
  (forall c1 c2 : Cacher S,
     (forall key now st, cacher_get c1 key now st = cacher_get c2 key now st) ->
     responses (trace_of (chat_completion JSON_parse zod_parse fetch config (Some c1)
                            req t_get t_set) s) =
     responses (trace_of (chat_completion JSON_parse zod_parse fetch config (Some c2)
                            req t_get t_set) s)) /\
  (let tr := trace_of
               (chat_completion JSON_parse zod_parse fetch config cacher req t_get t_set) s in
   forall key m, In (CacheGet key (Throw m)) tr ->
     count is_fetch tr = 0%nat /\ count is_cache_set tr = 0%nat /\
     forall r, In (Respond r) tr -> status r = 500).
Proof.
  split.
  - intros c1 c2 Hget. unfold_handler. unfold providers_lookup.
    simpl; repeat (rewrite <- ?Hget; destruct_atom; simpl); reflexivity.
  - intros tr. subst tr. unfold_handler. unfold providers_lookup.
    handler_cases; intros key m Hin; in_cases Hin;
      (split; [reflexivity|split; [reflexivity|]]);
      intros ? Hr; in_cases Hr; reflexivity.
Qed.

(** A chat completion request is answered at most once. *)
Lemma at_most_one_response (req : request) (t_get t_set : Z) (s : S) :
  (List.length
     (responses
        (trace_of
           (chat_completion JSON_parse zod_parse fetch config cacher req t_get t_set) s))
   <= 1)%nat.
Proof.
  unfold_handler. unfold providers_lookup. handler_cases; lia.
Qed.

(** C8, as the code has it: for an Azure provider and no deployment id in
    the header or the payload, no configuration error is raised.  The cache
    is consulted as for any request, and unless it answers (or fails), a
    non-streaming request with a valid payload is sent upstream with the
    deployment segment of the URL reading [undefined]. *)
Theorem azure_without_deployment_id (req : request) (t_get t_set : Z) (s : S)
    (c : provider_config) :
  providers config !! js_to_string (provider_of req) = Some c ->
  type c = AzureOpenAIService ->
  deployment_of req = VUndefined ->
  let tr := trace_of
              (chat_completion JSON_parse zod_parse fetch config cacher req t_get t_set) s in
  let target :=
    js_to_string (optional_string (url c)) +:+
    "/openai/deployments/undefined/chat/completions?api-version=2023-08-01-preview" in
  (forall r, In (Respond r) tr -> status r ≠ 400) /\
  (forall c0, cacher = Some c0 -> no_cache req = false ->
     exists a rest, tr = CacheGet (cache_key (provider_of req) (body req)) a :: rest) /\
  (forall args,
     truthy (get_prop (body req) "stream") = false ->
     zod_parse AzureOpenAIChatCompletionArgs (body req) = Ok args ->
     (exists key text, In (CacheGet key (Ok (Some text))) tr /\ text ≠ "") \/
     (exists key m, In (CacheGet key (Throw m)) tr) \/
     (exists init a, In (Fetch target init a) tr)).
Proof.
  intros Hc Ht Hd tr target. subst tr target.
  unfold_handler. unfold providers_lookup, azure_opts, deployment_url.
  rewrite Hc, Hd. simpl. rewrite Ht. split; [|split].
  - handler_cases; intros ? Hr; in_cases Hr; done.
  - intros c0 -> Hnc. rewrite Hnc. handler_cases; eauto.
  - intros args Hs Hz. rewrite Hs, Hz.
    handler_cases;
      first [ right; right; do 2 eexists; simpl; eauto 10; fail
            | right; left; do 2 eexists; simpl; eauto 10; fail
            | left; do 2 eexists; split; [simpl; eauto 10|];
              intros ->; discriminate ].
Qed.

End ServerFacts.

Section TranscriptionFacts.

Context {S : Type}.
Variable JSON_parse : string -> result jsval.
Variable zod_parse : schema -> jsval -> result jsval.
Variable fetch : string -> fetch_init -> result fetch_response.
Variable digest : string -> list Z -> list Z.
Variable config : Config.
Variable cacher : option (Cacher S).

(** The digest of the upload does not reach the key: an [ArrayBuffer] is
    serialized as the empty object. *)
Lemma file_cache_key_ignores_bytes (provider data : jsval) (hash1 hash2 : list Z) :
  file_cache_key provider data (VArrayBuffer hash1) =
  file_cache_key provider data (VArrayBuffer hash2).
Proof. reflexivity. Qed.

(** Every cache access of the transcription handler uses a key in which the
    upload appears as [{}], whatever the digest function and the bytes. *)
Lemma transcription_keys_ignore_upload (req : request) (t_get t_set : Z) (s : S) :
  Forall (eq (file_cache_key (provider_of req) (body req) (VObj [])))
    (cache_keys
       (trace_of
          (audio_transcriptions JSON_parse zod_parse fetch digest config cacher
             req t_get t_set) s)).
Proof.
  unfold_handler. unfold providers_lookup.
  handler_cases; repeat constructor.
Qed.

End TranscriptionFacts.

(** * The handlers on concrete requests *)

Module Checks.
Import Scenario.

(** The first call misses, calls the adapter and stores the result; the
    second identical call is answered from the cache without calling the
    adapter; with [Cache-Control: no-cache] it goes upstream again. *)
Example miss_then_hit :
  let handle req now s :=
    run (chat_completion parse_completion accept (upstream answer_ok) config
           (Some MemoryCacher.cacher) req now (now + 500)) s in
  let first := handle (chat "p1" chat_fields None) 1000 (MemoryCacher.new (Some 60)) in
  let second := handle (chat "p1" chat_fields None) 5000 (store first.2) in
  let third := handle (chat "p1" chat_fields (Some "no-cache")) 9000 (store second.2) in
  count is_fetch (trace first.2) = 1%nat /\
  count is_cache_set (trace first.2) = 1%nat /\
  count is_fetch (trace second.2) = 0%nat /\
  responses (trace second.2) =
    [ {| status := 200;
         response_headers := [("X-Cache-Status", "HIT")];
         payload := Json (VObj [("id", VStr "chatcmpl-1");
                                ("object", VStr "chat.completion");
                                ("cached", VBool true)]) |} ] /\
  count is_fetch (trace third.2) = 1%nat /\
  responses (trace third.2) =
    [ {| status := 200; response_headers := []; payload := Json completion_body |} ].
Proof. vm_compute. repeat split. Qed.

(** C1 as stated fails: an upstream 401 whose body is JSON is returned by
    the adapter like a completion, and the handler caches it. *)
Lemma unverified_response_is_cached :
  ~ written_only_after_verified_success
      (trace_of
         (chat_completion (parse_table []) accept (upstream answer_unauthorized)
            config (Some MemoryCacher.cacher) (chat "p1" chat_fields None) 1000 2000)
         (MemoryCacher.new (Some 60))).
Proof.
  intros H.
  destruct (H (cache_key (VStr "p1") (VObj chat_fields))
              (stringify_text unauthorized) (Ok tt)) as (target & init & r & Hin & Hok).
  - vm_compute. auto 10.
  - vm_compute in Hin.
    repeat (destruct Hin as [Hin|Hin]); try discriminate Hin; try contradiction.
    inversion Hin; subst r. vm_compute in Hok. discriminate Hok.
Qed.

Lemma cache_write_follows_adapter_return_witness :
  let req := chat "p1" chat_fields None in
  let tr := trace_of
              (chat_completion (parse_table []) accept (upstream answer_ok)
                 config (Some MemoryCacher.cacher) req 1000 2000)
              (MemoryCacher.new (Some 60)) in
  let key := cache_key (VStr "p1") (VObj chat_fields) in
  let val := stringify_text completion_body in
  In (CacheSet key val (Ok tt)) tr /\
  (key = cache_key (provider_of req) (body req) /\
   exists pre post target init r json,
     tr = pre ++ Fetch target init (Ok r) :: post /\
     In (CacheSet key val (Ok tt)) post /\
     resp_json r = Ok json /\ val = stringify_text json).
Proof.
  intros req tr key val.
  assert (Hin : In (CacheSet key val (Ok tt)) tr) by (vm_compute; auto 10).
  split; [exact Hin|].
  exact (proj1 (cache_write_follows_adapter_return (parse_table []) accept
                  (upstream answer_ok) config (Some MemoryCacher.cacher) req
                  1000 2000 (MemoryCacher.new (Some 60)))
               key val (Ok tt) Hin).
Defined.

(** C2 as stated fails: two payloads with the same fields in a different
    order are serialized differently. *)
Lemma field_order_changes_key :
  ~ (forall (provider : jsval) (fields1 fields2 : list (string * jsval)),
       NoDup (fields1.*1) -> Permutation fields1 fields2 ->
       cache_key provider (VObj fields1) = cache_key provider (VObj fields2)).
Proof.
  intros H.
  specialize (H (VStr "p1") [("model", VStr "gpt-x"); ("messages", messages)]
                [("messages", messages); ("model", VStr "gpt-x")]).
  assert (Hk : cache_key (VStr "p1") (VObj [("model", VStr "gpt-x"); ("messages", messages)]) =
               cache_key (VStr "p1") (VObj [("messages", messages); ("model", VStr "gpt-x")])).
  { apply H.
    - apply NoDup_ListNoDup. repeat constructor; simpl; intuition discriminate.
    - apply perm_swap. }
  vm_compute in Hk. discriminate Hk.
Qed.

(** C3: the digest of the upload is computed but does not reach the cache
    key, so a second upload with the same form fields and different bytes is
    answered from the cache with the transcript of the first. *)
Theorem second_upload_served_first_transcript :
  let K := stringify_object [("provider", VStr "az"); ("data", VObj [("language", VStr "en")]); ("fileHash", VObj [])] in 
  let run1 :=
    run (audio_transcriptions parse_transcript accept (upstream (answer_transcript "first"))
           sha config (Some MemoryCacher.cacher) (transcription [1; 2; 3]) 1000 2000)
        (MemoryCacher.new None) in
  let run2 :=
    run (audio_transcriptions parse_transcript accept (upstream (answer_transcript "second"))
           sha config (Some MemoryCacher.cacher) (transcription [4; 5; 6]) 3000 4000)
        (store run1.2) in
  sha "SHA-256" [1; 2; 3] ≠ sha "SHA-256" [4; 5; 6] /\
  cache_keys (trace run1.2) = [K; K] /\
  cache_keys (trace run2.2) = [K] /\
  count is_fetch (trace run2.2) = 0%nat /\
  responses (trace run2.2) =
    [ {| status := 200;
         response_headers := [("X-Cache-Status", "HIT"); ("Content-Type", "text/plain")];
         payload := Send (VStr "first") |} ].
Proof.
  vm_compute. repeat split; try reflexivity. discriminate.
Qed.

(** C7: a provider name that is not configured but names a member every
    object inherits passes the existence check: the cache is read and the
    request is left without any response. *)
Theorem inherited_name_passes_provider_check
    (JSON_parse : string -> result jsval) (zod_parse : schema -> jsval -> result jsval)
    (fetch : string -> fetch_init -> result fetch_response) :
  providers config !! "constructor" = None /\
  trace_of
    (chat_completion JSON_parse zod_parse fetch config (Some MemoryCacher.cacher)
       (chat "constructor" chat_fields None) 1000 2000)
    (MemoryCacher.new (Some 60)) =
  [CacheGet (cache_key (VStr "constructor") (VObj chat_fields)) (Ok None)].
Proof. split; reflexivity. Qed.

(** C9: a request for embeddings from an OpenAI provider, a streaming chat
    completion, and a chat completion whose upstream call is rejected with a
    message that is not JSON (the [catch] block parses it) all end without a
    response of either kind. *)
Theorem unanswered_requests
    (JSON_parse : string -> result jsval) (zod_parse : schema -> jsval -> result jsval)
    (fetch : string -> fetch_init -> result fetch_response) :
  responses
    (trace_of (embeddings JSON_parse zod_parse fetch config
                 (chat "p1" [("input", VStr "hello")] None)) tt) = [] /\
  responses
    (trace_of
       (chat_completion JSON_parse zod_parse fetch config (@None (Cacher unit))
          (chat "p1" (chat_fields ++ [("stream", VBool true)]) None) 1000 2000) tt) = [] /\
  responses
    (trace_of
       (chat_completion (parse_table []) accept
          (upstream (Throw "error sending request: connection refused"))
          config (@None (Cacher unit)) (chat "p1" chat_fields None) 1000 2000) tt) = [].
Proof. repeat split; reflexivity. Qed.


(** C6 as stated fails: when the cache read fails the request is not handled
    as on a miss; here it gets no response at all, where a miss is answered
    with the completion. *)
Lemma failing_get_fails_request :
  responses
    (trace_of
       (chat_completion (parse_table []) accept (upstream answer_ok) config
          (Some RedisCacher.cacher) (chat "p1" chat_fields None) 1000 2000)
       redis_down) ≠
  responses
    (trace_of
       (chat_completion (parse_table []) accept (upstream answer_ok) config
          (Some MemoryCacher.cacher) (chat "p1" chat_fields None) 1000 2000)
       (MemoryCacher.new (Some 60))).
Proof. vm_compute. discriminate. Qed.

Lemma cache_failures_witness :
  let req := chat "p1" chat_fields None in
  let run_with {S} (c : Cacher S) (s : S) :=
    trace_of (chat_completion (parse_table []) accept (upstream answer_ok) config
                (Some c) req 1000 2000) s in
  responses (run_with MemoryCacher.cacher (MemoryCacher.new (Some 60))) =
  responses (run_with memory_failing_set (MemoryCacher.new (Some 60))) /\
  (In (CacheGet (cache_key (VStr "p1") (VObj chat_fields))
         (Throw "Connection refused (os error 111)"))
      (run_with RedisCacher.cacher redis_down) /\
   count is_fetch (run_with RedisCacher.cacher redis_down) = 0%nat /\
   count is_cache_set (run_with RedisCacher.cacher redis_down) = 0%nat /\
   forall r, In (Respond r) (run_with RedisCacher.cacher redis_down) -> status r = 500).
Proof.
  intros req run_with. split.
  - exact (proj1 (cache_failures (parse_table []) accept (upstream answer_ok) config
                    (Some MemoryCacher.cacher) req 1000 2000 (MemoryCacher.new (Some 60)))
                 MemoryCacher.cacher memory_failing_set
                 (fun _ _ _ => eq_refl)).
  - assert (Hin : In (CacheGet (cache_key (VStr "p1") (VObj chat_fields))
                        (Throw "Connection refused (os error 111)"))
                     (run_with _ RedisCacher.cacher redis_down))
      by (vm_compute; auto).
    split; [exact Hin|].
    exact (proj2 (cache_failures (parse_table []) accept (upstream answer_ok) config
                    (Some RedisCacher.cacher) req 1000 2000 redis_down) _ _ Hin).
Defined.

(** C8 as stated fails: the Azure request without a deployment id reads the
    cache and is sent upstream. *)
Lemma azure_request_reaches_cache_and_upstream :
  ~ refused_before_io
      (trace_of
         (chat_completion (parse_table []) accept (upstream answer_ok) config
            (Some MemoryCacher.cacher) (chat "az" azure_fields None) 1000 2000)
         (MemoryCacher.new (Some 60))).
Proof. intros (Hget & _). vm_compute in Hget. discriminate Hget. Qed.

Lemma azure_without_deployment_id_witness :
  let req := chat "az" azure_fields None in
  let tr := trace_of
              (chat_completion (parse_table []) accept (upstream answer_ok) config
                 (Some MemoryCacher.cacher) req 1000 2000)
              (MemoryCacher.new (Some 60)) in
  deployment_of req = VUndefined /\
  (forall r, In (Respond r) tr -> status r ≠ 400) /\
  (exists a rest, tr = CacheGet (cache_key (provider_of req) (body req)) a :: rest) /\
  ((exists key text, In (CacheGet key (Ok (Some text))) tr /\ text ≠ "") \/
   (exists key m, In (CacheGet key (Throw m)) tr) \/
   (exists init a,
      In (Fetch "https://aigate.openai.azure.com/openai/deployments/undefined/chat/completions?api-version=2023-08-01-preview"
            init a) tr)).
Proof.
  intros req tr.
  pose proof (azure_without_deployment_id (parse_table []) accept (upstream answer_ok)
                config (Some MemoryCacher.cacher) req 1000 2000
                (MemoryCacher.new (Some 60)) az eq_refl eq_refl eq_refl) as (H1 & H2 & H3).
  split; [reflexivity|]. split; [exact H1|]. split.
  - exact (H2 MemoryCacher.cacher eq_refl eq_refl).
  - exact (H3 (VObj azure_fields) eq_refl eq_refl).
Defined.

Lemma no_cache_bypass_witness :
  let req := chat "p1" chat_fields (Some "no-cache") in
  let s := MemoryCacher.set (cache_key (VStr "p1") (VObj chat_fields))
             (stringify_text completion_body) 500 (MemoryCacher.new (Some 60)) in
  let tr := trace_of
              (chat_completion (parse_table []) accept (upstream answer_ok) config
                 (Some MemoryCacher.cacher) req 1000 2000) s in
  no_cache req = true /\
  is_Some (MemoryCacher.cache s !! cache_key (provider_of req) (body req)) /\
  count is_cache_get tr = 0%nat /\
  (forall r, In (Respond r) tr -> served_from_cache r = false) /\
  count is_fetch tr = 1%nat.
Proof.
  intros req s tr.
  pose proof (no_cache_bypass (parse_table []) accept (upstream answer_ok) config
                (Some MemoryCacher.cacher) req 1000 2000 s eq_refl) as (H1 & H2 & H3 & _).
  split; [reflexivity|]. split; [vm_compute; eauto|].
  split; [exact H1|]. split; [exact H2|].
  exact (H3 p1 (VObj chat_fields) eq_refl eq_refl (or_introl (conj eq_refl eq_refl))).
Defined.


End Checks.

(** * More properties of the cache store *)

Module MemoryCacherMore.
Import MemoryCacher MemoryCacherFacts.

Lemma expired_later e now now' :
  now <= now' -> expired now e = true -> expired now' e = true.
Proof.
  unfold expired. destruct (expires e) as [x|]; simpl; [|done].
  destruct (x =? 0); simpl; [done|]. lia.
Qed.

Lemma purge_lookup now this k :
  cache (purge now this) !! k =
  match cache this !! k with
  | Some e => if expired now e then None else Some e
  | None => None
  end.
Proof.
  unfold purge; simpl.
  destruct (cache this !! k) as [e|] eqn:E.
  - destruct (expired now e) eqn:X.
    + apply map_lookup_filter_None. right. intros e' He'. simpl.
      rewrite E in He'. injection He' as <-. rewrite X. done.
    + apply map_lookup_filter_Some. done.
  - apply map_lookup_filter_None. by left.
Qed.

(** The sweep removes exactly the expired entries, and a later [get] cannot
    tell whether it ran. *)
Theorem purge_unobservable (swept now : Z) (this : t) (key : string) :
  (cache (purge swept this) !! key = None <->
   cache this !! key = None \/
   exists e, cache this !! key = Some e /\ expired swept e = true) /\
  (swept <= now -> (get key now (purge swept this)).1 = (get key now this).1).
Proof.
  split.
  - rewrite purge_lookup. destruct (cache this !! key) as [e|] eqn:E.
    + destruct (expired swept e) eqn:X.
      * split; [intros _; right; eauto|done].
      * split; [done|]. intros [?|(e' & He' & Hx)]; [done|]. congruence.
    + split; [by left|done].
  - intros Hle. unfold get. rewrite purge_lookup.
    destruct (cache this !! key) as [e|] eqn:E; [|done].
    destruct (expired swept e) eqn:X.
    + by rewrite (expired_later e swept now Hle X).
    + by destruct (expired now e).
Qed.

(** Reading twice at the same instant gives the same answer, and the second
    read changes nothing. *)
Theorem get_idempotent (key : string) (now : Z) (this : t) :
  get key now (get key now this).2 = get key now this.
Proof.
  unfold get at 2 3. destruct (cache this !! key) as [e|] eqn:E; simpl.
  - destruct (expired now e) eqn:X; simpl.
    + unfold get; simpl. by rewrite lookup_delete_eq.
    + unfold get. by rewrite E, X.
  - unfold get. by rewrite E.
Qed.

(** A write under one key never changes what is read under another, and
    writes under distinct keys commute. *)
Theorem set_frame (k1 k2 v1 v2 : string) (t1 t2 now : Z) (this : t) :
  k1 ≠ k2 ->
  (get k2 now (set k1 v1 t1 this)).1 = (get k2 now this).1 /\
  set k1 v1 t1 (set k2 v2 t2 this) = set k2 v2 t2 (set k1 v1 t1 this).
Proof.
  intros Hne. split.
  - unfold get, set; simpl. rewrite lookup_insert_ne by done.
    destruct (cache this !! k2) as [e|]; [|done]. by destruct (expired now e).
  - unfold set; simpl. f_equal. by apply insert_insert_ne.
Qed.

(** Writing a key again replaces the value and the expiry of the earlier
    write: only the last write to a key is kept. *)
Theorem set_overwrites (key v1 v2 : string) (t1 t2 : Z) (this : t) :
  set key v2 t2 (set key v1 t1 this) = set key v2 t2 this.
Proof. unfold set; simpl. f_equal. apply insert_insert_eq. Qed.

Lemma run_ops_app ops1 ops2 this :
  run_ops (ops1 ++ ops2) this = run_ops ops2 (run_ops ops1 this).
Proof.
  revert this. induction ops1 as [|[o now] rest IH]; intros this; simpl; [done|].
  apply IH.
Qed.

(** Every entry of a store built from an empty one was written by a [set] of
    the schedule, and carries that write's value and expiry: no expiry
    without a TTL, the write's clock plus [ttl * 1000] with one. *)
Theorem entries_come_from_sets (ttl0 : option Z) (ops : list (op * Z))
    (key : string) (e : entry) :
  cache (run_ops ops (new ttl0)) !! key = Some e ->
  exists now,
    In (OpSet key (value e), now) ops /\
    expires e = if number_truthy ttl0
                then Some (now + default 0 ttl0 * 1000)
                else None.
Proof.
  revert key e. induction ops as [|[o now] rest IH] using rev_ind; intros key e.
  - simpl. rewrite lookup_empty. done.
  - rewrite run_ops_app. simpl.
    assert (Httl : ttl (run_ops rest (new ttl0)) = ttl0) by apply run_ops_ttl.
    assert (Hold : cache (run_ops rest (new ttl0)) !! key = Some e ->
                   exists now0,
                     In (OpSet key (value e), now0) (rest ++ [(o, now)]) /\
                     expires e = if number_truthy ttl0
                                 then Some (now0 + default 0 ttl0 * 1000)
                                 else None).
    { intros H. destruct (IH _ _ H) as (now0 & Hin & Hexp).
      exists now0. split; [apply in_or_app; by left|done]. }
    destruct o as [k|k v|]; simpl.
    + intros H. apply Hold.
      unfold get in H. destruct (cache (run_ops rest (new ttl0)) !! k) as [e'|] eqn:E;
        [|done].
      destruct (expired now e'); simpl in H; [|done].
      apply lookup_delete_Some in H as [_ H]. done.
    + destruct (decide (k = key)) as [->|Hne].
      * rewrite lookup_insert_eq. intros [= <-]. simpl.
        exists now. split; [apply in_or_app; right; by left|].
        rewrite Httl. destruct ttl0 as [T|]; simpl; [|done].
        by destruct (T =? 0).
      * rewrite lookup_insert_ne by done. apply Hold.
    + intros H. apply map_lookup_filter_Some in H as [H _]. by apply Hold.
Qed.

End MemoryCacherMore.

(** * More properties of the server *)

#[local] Arguments cache_key : simpl never.
#[local] Arguments file_cache_key : simpl never.
#[local] Arguments MemoryCacher.get : simpl never.
#[local] Arguments MemoryCacher.set : simpl never.
#[local] Arguments with_file : simpl never.
#[local] Arguments poll_result : simpl never.

Section GetCacherFacts.

Context {R : Type}.
Variable connect : connect_options -> result (RedisCacher.Redis R).
Variable server : R.

(** A cache configuration that the schema accepts makes [getCacher] throw
    exactly when the storage is Redis and the hostname is empty or the port
    is 0; in-process storage never throws, whatever else is configured, and
    starts empty with the configured TTL. *)
Theorem getCacher_accepts (c : cache_config) :
  cache_refine c = true ->
  ((exists e, getCacher connect server (Some c) = Throw e) <->
   storage c = StorageRedis /\ (hostname c = Some "" \/ port c = Some 0)) /\
  (storage c = StorageMemory ->
   getCacher connect server (Some c) = Ok (InMemory (MemoryCacher.new (cache_ttl c)))) /\
  (forall r, getCacher connect server (Some c) = Ok (InRedis r) ->
     RedisCacher.ttl r = cache_ttl c /\ RedisCacher.server r = server).
Proof.
  unfold cache_refine, getCacher. intros Href.
  destruct (storage c) eqn:Hs.
  - apply andb_true_iff in Href as [Hh Hp].
    apply bool_decide_eq_true in Hh. apply bool_decide_eq_true in Hp.
    destruct (hostname c) as [h|]; [|done]. destruct (port c) as [p|]; [|done].
    simpl. split; [|split; [done|]].
    + destruct (String.eqb h "") eqn:Eh; simpl.
      * apply String.eqb_eq in Eh as ->. split; eauto.
      * apply String.eqb_neq in Eh.
        destruct (p =? 0) eqn:Ep; simpl.
        -- apply Z.eqb_eq in Ep as ->. split; eauto.
        -- apply Z.eqb_neq in Ep. split; [intros [e He]; done|].
           intros [_ [[= ->]|[= ->]]]; done.
    + destruct (negb (negb (String.eqb h "")) || negb (negb (p =? 0))); [done|].
      intros r [= <-]. done.
  - split; [|split; [done|done]].
    split; [intros [e He]; done|intros [? _]; done].
Qed.

End GetCacherFacts.

Section AuthFacts.

Context {S : Type}.


End AuthFacts.

(** * Image generation *)

Lemma count_snoc (p : effect -> bool) (tr : list effect) (e : effect) :
  count p (tr ++ [e]) = (count p tr + if p e then 1 else 0)%nat.
Proof.
  unfold count. rewrite List.filter_app, length_app. simpl.
  by destruct (p e).
Qed.

Section ImageGenerationFacts.

Context {S : Type}.
Variable upstream : nat -> string -> fetch_init -> result fetch_response.
Variable statusText : fetch_response -> string.

Lemma poll_result_step (n : nat) (opts : AzureOpenAIOpts) (json : jsval) :
  @poll_result S upstream (Datatypes.S n) opts json =
  (do id <- lift (member json "id");
   do resultResp <- fetch_next upstream
                      (js_to_string (azure_url opts) +:+
                       "/openai/operations/images/" +:+ js_to_string id +:+
                       "?api-version=2023-08-01-preview")
                      {| method := "GET";
                         init_headers := [("api-key", apiKey opts)];
                         init_body := TextBody None |};
   do resultJson <- lift (resp_json resultResp);
   do status <- lift (member resultJson "status");
   if is_string status "succeeded" then ret (get_prop resultJson "result")
   else if is_string status "failed" || is_string status "canceled" ||
           is_string status "deleted" then
     do message <- lift (member (get_prop resultJson "error") "message");
     throw ("Azure OpenAI image generation failed: " +:+ js_to_string message)
   else poll_result upstream n opts json).
Proof. reflexivity. Qed.

(** One iteration of the loop whose answer is known. *)
Lemma poll_result_answered (n : nat) (opts : AzureOpenAIOpts) (json id j st : jsval)
    (r : fetch_response) (w : world S) :
  member json "id" = Ok id ->
  (forall target init, upstream (calls w) target init = Ok r) ->
  resp_json r = Ok j -> member j "status" = Ok st ->
  exists w',
    calls w' = Datatypes.S (calls w) /\
    poll_result upstream (Datatypes.S n) opts json w =
    (if is_string st "succeeded" then ret (get_prop j "result")
     else if is_string st "failed" || is_string st "canceled" ||
             is_string st "deleted" then
       do message <- lift (member (get_prop j "error") "message");
       throw ("Azure OpenAI image generation failed: " +:+ js_to_string message)
     else poll_result upstream n opts json) w'.
Proof.
  intros Hid Hr Hj Hst. eexists. split; cycle 1.
  - rewrite poll_result_step.
    unfold bind at 1. unfold lift at 1. rewrite Hid.
    unfold bind at 1. unfold fetch_next, await_fetch. fold (calls w). rewrite Hr.
    unfold bind at 1. unfold lift at 1. rewrite Hj.
    unfold bind at 1. unfold lift at 1. rewrite Hst. reflexivity.
  - unfold calls; simpl. rewrite count_snoc. simpl. lia.
Qed.

Lemma poll_result_calls (n : nat) (opts : AzureOpenAIOpts) (json : jsval) (w : world S) :
  (calls (poll_result upstream n opts json w).2 <= calls w + n)%nat /\
  store (poll_result upstream n opts json w).2 = store w.
Proof.
  revert w. induction n as [|n IH]; intros w.
  - unfold poll_result, throw; simpl. split; [lia|done].
  - rewrite poll_result_step. unfold bind, lift, fetch_next, await_fetch, ret, throw; simpl.
    destruct (member json "id") as [id|e]; simpl; [|split; [lia|done]].
    set (w1 := {| store := store w; res_headers := res_headers w; trace := _ |}).
    assert (Hw1 : calls w1 = Datatypes.S (calls w)).
    { unfold calls, w1; simpl. rewrite count_snoc. simpl. lia. }
    destruct (upstream _ _ _) as [r|e]; simpl; [|split; [lia|done]].
    destruct (resp_json r) as [j|e]; simpl; [|split; [lia|done]].
    destruct (member j "status") as [st|e]; simpl; [|split; [lia|done]].
    destruct (is_string st "succeeded"); simpl; [split; [lia|done]|].
    destruct (is_string st "failed" || is_string st "canceled" || is_string st "deleted");
      simpl.
    + destruct (member (get_prop j "error") "message"); simpl; split; (lia || done).
    + destruct (IH w1) as [H1 H2]. split; [lia|]. by rewrite H2.
Qed.

Lemma poll_pending_steps (k n : nat) (opts : AzureOpenAIOpts) (json id : jsval)
    (w : world S) :
  member json "id" = Ok id ->
  (forall i, (i < k)%nat -> pending_at upstream (calls w + i)) ->
  exists w',
    poll_result upstream (k + n) opts json w = poll_result upstream n opts json w' /\
    calls w' = (calls w + k)%nat.
Proof.
  intros Hid. revert w. induction k as [|k IH]; intros w Hpend.
  - exists w. split; [done|lia].
  - change (Datatypes.S k + n)%nat with (Datatypes.S (k + n)).
    destruct (Hpend 0%nat ltac:(lia)) as (r & j & st & Hr & Hj & Hst & H1 & H2 & H3 & H4).
    rewrite Nat.add_0_r in Hr.
    destruct (poll_result_answered (k + n) opts json id j st r w Hid Hr Hj Hst)
      as (w1 & Hw1 & ->).
    rewrite H1, H2, H3, H4. simpl.
    destruct (IH w1) as (w' & Hw' & Hc).
    { intros i Hi. rewrite Hw1.
      replace (Datatypes.S (calls w) + i)%nat with (calls w + Datatypes.S i)%nat by lia.
      apply Hpend. lia. }
    exists w'. split; [done|lia].
Qed.

(** Image generation makes at most eleven upstream calls (the submission and
    ten polls) and never touches the store; a submission that is answered
    with a status outside 200-299 is not polled at all. *)
Theorem imageGeneration_bounded (opts : AzureOpenAIOpts) (args : jsval) (w : world S) :
  let out := azoai_imageGeneration upstream statusText opts args w in
  (calls out.2 <= calls w + 11)%nat /\
  store out.2 = store w /\
  (forall r,
     (forall target init, upstream (calls w) target init = Ok r) ->
     resp_ok r = false ->
     calls out.2 = Datatypes.S (calls w) /\
     out.1 = Throw ("Received non-OK response from Azure OpenAI image generation: " +:+
                    pretty (resp_status r) +:+ " " +:+ statusText r)).
Proof.
  unfold azoai_imageGeneration, bind, lift, fetch_next, await_fetch, throw. simpl.
  set (target := (_ +:+ _)%string).
  set (init := {| method := "POST"; init_headers := _; init_body := _ |}).
  set (w1 := {| store := store w; res_headers := res_headers w; trace := _ |}).
  assert (Hw1 : calls w1 = Datatypes.S (calls w)).
  { unfold calls, w1; simpl. rewrite count_snoc. simpl. lia. }
  destruct (upstream (calls w) target init) as [r|e] eqn:E; simpl.
  - destruct (resp_ok r) eqn:Hok; simpl.
    + destruct (resp_json r) as [j|e]; simpl.
      * destruct (poll_result_calls max_tries opts j w1) as [H1 H2].
        unfold max_tries in *. split; [lia|]. split; [by rewrite H2|].
        intros r' Hr' Hbad. rewrite Hr' in E. congruence.
      * split; [lia|]. split; [done|].
        intros r' Hr' Hbad. rewrite Hr' in E. congruence.
    + split; [lia|]. split; [done|].
      intros r' Hr' Hbad. rewrite Hr' in E. injection E as ->. done.
  - split; [lia|]. split; [done|]. intros r' Hr'. rewrite Hr' in E. done.
Qed.

(** When the submission is accepted, the adapter returns the [result] of the
    first status document that says [succeeded], after polling once per
    document; when ten documents in a row are still pending it gives up with
    the time-out error after exactly ten polls. *)
Theorem imageGeneration_polls (opts : AzureOpenAIOpts) (args : jsval) (s : S)
    (r0 : fetch_response) (json id : jsval) (k : nat) :
  let w := {| store := s; res_headers := []; trace := [] |} in
  let out := azoai_imageGeneration upstream statusText opts args w in
  (forall target init, upstream 0 target init = Ok r0) ->
  resp_ok r0 = true -> resp_json r0 = Ok json -> member json "id" = Ok id ->
  (forall i, (i < k)%nat -> pending_at upstream (Datatypes.S i)) ->
  (k = max_tries ->
   out.1 = Throw "Azure OpenAI image generation timed out after 10 tries" /\
   calls out.2 = 11%nat) /\
  (forall r j,
     (k < max_tries)%nat ->
     (forall target init, upstream (Datatypes.S k) target init = Ok r) ->
     resp_json r = Ok j -> member j "status" = Ok (VStr "succeeded") ->
     out.1 = Ok (get_prop j "result") /\ calls out.2 = (k + 2)%nat).
Proof.
  intros w out Hsubmit Hok Hjson Hid Hpend. subst out.
  assert (Hrun : exists w1,
            calls w1 = 1%nat /\
            azoai_imageGeneration upstream statusText opts args w =
            poll_result upstream max_tries opts json w1).
  { eexists. split; cycle 1.
    - unfold azoai_imageGeneration, bind, fetch_next, await_fetch, lift. simpl.
      change (calls w) with 0%nat. rewrite Hsubmit, Hok. simpl. rewrite Hjson.
      reflexivity.
    - reflexivity. }
  destruct Hrun as (w1 & Hw1 & ->).
  split.
  - intros ->.
    destruct (poll_pending_steps max_tries 0 opts json id w1 Hid) as (w' & Hw' & Hc).
    { intros i Hi. rewrite Hw1. apply Hpend. done. }
    rewrite Nat.add_0_r in Hw'. rewrite Hw'. unfold poll_result, throw. simpl.
    split; [done|]. rewrite Hc, Hw1. reflexivity.
  - intros r j Hk Hr Hj Hst.
    destruct (poll_pending_steps k (max_tries - k) opts json id w1 Hid) as (w' & Hw' & Hc).
    { intros i Hi. rewrite Hw1. apply Hpend. done. }
    replace (k + (max_tries - k))%nat with max_tries in Hw' by lia.
    rewrite Hw'.
    destruct (max_tries - k)%nat as [|n] eqn:En; [lia|].
    assert (Hr' : forall target init, upstream (calls w') target init = Ok r).
    { rewrite Hc, Hw1. exact Hr. }
    destruct (poll_result_answered n opts json id j (VStr "succeeded") r w' Hid Hr' Hj Hst)
      as (w2 & Hw2 & ->).
    simpl. split; [done|]. lia.
Qed.

End ImageGenerationFacts.

(** * More properties of the chat handler *)

Section ChatFacts.

Context {S : Type}.
Variable JSON_parse : string -> result jsval.
Variable zod_parse : schema -> jsval -> result jsval.
Variable fetch : string -> fetch_init -> result fetch_response.
Variable config : Config.
Variable cacher : option (Cacher S).

(** When the cache read returns a non-empty text that parses, the request is
    answered from it: one response, status 200, [X-Cache-Status: HIT], the
    stored document with [cached: true] added; no upstream call and no
    cache write, whatever the provider's type or the payload. *)
Theorem cache_hit_is_served (req : request) (t_get t_set : Z) (s s' : S)
    (c : Cacher S) (slot : provider_slot) (text : string) (v : jsval) :
  cacher = Some c ->
  providers_lookup config (provider_of req) = Some slot ->
  no_cache req = false ->
  cacher_get c (cache_key (provider_of req) (body req)) t_get s = (Ok (Some text), s') ->
  text ≠ "" ->
  JSON_parse text = Ok v ->
  run (chat_completion JSON_parse zod_parse fetch config cacher req t_get t_set) s =
  (Ok tt,
   {| store := s';
      res_headers := [("X-Cache-Status", "HIT")];
      trace :=
        [CacheGet (cache_key (provider_of req) (body req)) (Ok (Some text));
         Respond {| status := 200;
                    response_headers := [("X-Cache-Status", "HIT")];
                    payload :=
                      Json (VObj (define_property (spread v) "cached" (VBool true))) |}] |}).
Proof.
  intros -> Hslot Hnc Hget Htext Hparse.
  unfold_handler. rewrite Hslot, Hnc. simpl. rewrite Hget. simpl.
  apply String.eqb_neq in Htext. rewrite Htext. simpl.
  rewrite Hparse. reflexivity.
Qed.

(** A response carries [X-Cache-Status: HIT] only when a cache read returned
    a non-empty entry, and then the run made no upstream call and no cache
    write. *)
Theorem hit_header_sound (req : request) (t_get t_set : Z) (s : S) (r : http_response) :
  let tr := trace_of (chat_completion JSON_parse zod_parse fetch config cacher req t_get t_set) s in
  In (Respond r) tr -> served_from_cache r = true ->
  (exists key text, In (CacheGet key (Ok (Some text))) tr /\ text ≠ "") /\
  count is_fetch tr = 0%nat /\ count is_cache_set tr = 0%nat.
Proof.
  intros tr. subst tr. unfold_handler. unfold providers_lookup.
  handler_cases; intros Hin Hhit; in_cases Hin; try discriminate Hhit;
    (split; [|split; reflexivity]);
    do 2 eexists; (split; [simpl; eauto|]); intros ->; discriminate.
Qed.

(** A run makes at most one cache read, one upstream call and one cache
    write and sends at most one response.  The cache read, if any, comes
    first; the cache write, if any, comes last, right after a 200 response. *)
Theorem effects_in_order (req : request) (t_get t_set : Z) (s : S) :
  let tr := trace_of (chat_completion JSON_parse zod_parse fetch config cacher req t_get t_set) s in
  ((count is_cache_get tr <= 1)%nat /\ (count is_fetch tr <= 1)%nat /\
   (count is_cache_set tr <= 1)%nat /\ (List.length (responses tr) <= 1)%nat) /\
  count is_cache_get (tail tr) = 0%nat /\
  (count is_cache_set tr = 1%nat ->
   exists pre r key val a,
     tr = pre ++ [Respond r; CacheSet key val a] /\ status r = 200).
Proof.
  intros tr. subst tr. unfold_handler. unfold providers_lookup.
  handler_cases; (split; [repeat split; unfold count; simpl; lia|]); (split; [reflexivity|]);
    intros Hc; try discriminate Hc;
    first [ solve [exists []; do 4 eexists; split; reflexivity]
          | solve [eexists [_]; do 4 eexists; split; reflexivity]
          | solve [eexists [_; _]; do 4 eexists; split; reflexivity] ].
Qed.


(** Every response is one of three: the 400 "Invalid provider." envelope,
    sent exactly when the provider name resolves to nothing; the 500
    "Internal server error." envelope with a message; or a 200. *)
Theorem response_taxonomy (req : request) (t_get t_set : Z) (s : S) (r : http_response) :
  In (Respond r) (trace_of (chat_completion JSON_parse zod_parse fetch config cacher req t_get t_set) s) ->
  (status r = 400 /\ payload r = invalid_provider /\
   providers_lookup config (provider_of req) = None) \/
  (status r = 500 /\ (exists m, payload r = internal_server_error m) /\
   providers_lookup config (provider_of req) ≠ None) \/
  (status r = 200 /\ providers_lookup config (provider_of req) ≠ None).
Proof.
  unfold_handler.
  destruct (providers_lookup config (provider_of req)) as [slot|] eqn:Hslot.
  - handler_cases; intros Hin; in_cases Hin; simpl;
      first [ right; right; done | right; left; repeat split; eauto; done ].
  - simpl. intros [[= <-]|[]]. left. done.
Qed.

End ChatFacts.

Lemma pretty_N_go_nonempty (x : N) (s : string) : s ≠ "" -> pretty_N_go x s ≠ "".
Proof.
  revert s. induction (N.lt_wf_0 x) as [x _ IH]; intros s Hs.
  assert (x = 0 \/ 0 < x)%N as [->|Hpos] by lia.
  - by rewrite pretty_N_go_0.
  - rewrite pretty_N_go_step by done. apply IH; [by apply N.div_lt|done].
Qed.

Lemma pretty_Z_nonempty (n : Z) : pretty n ≠ "".
Proof.
  assert (HN : forall x : N, pretty x ≠ "").
  { intros x. unfold pretty, pretty_N. case_decide; [done|].
    rewrite pretty_N_go_step by lia. by apply pretty_N_go_nonempty. }
  destruct n as [|p|p]; unfold pretty, pretty_Z; [done|apply HN|].
  done.
Qed.

(** What [JSON.stringify] returns is never the empty text. *)
Lemma stringify_text_nonempty (v : jsval) : stringify_text v ≠ "".
Proof.
  unfold stringify_text. destruct v; simpl; try done.
  - by destruct b.
  - apply pretty_Z_nonempty.
Qed.



(** * The audio and embeddings handlers *)

Ltac unfold_more :=
  unfold audio_translations, azoai_audioTranslation in *; unfold_handler.

Lemma reported_content_type_eq (r : fetch_response) :
  js_or (optional_string (resp_content_type r)) (VStr "text/plain") =
  VStr (reported_content_type r).
Proof.
  unfold reported_content_type, js_or, optional_string.
  destruct (resp_content_type r) as [h|]; simpl; [|done].
  by destruct (String.eqb h "").
Qed.

Section TranscriptionMore.

Context {S : Type}.
Variable JSON_parse : string -> result jsval.
Variable zod_parse : schema -> jsval -> result jsval.
Variable fetch : string -> fetch_init -> result fetch_response.
Variable digest : string -> list Z -> list Z.
Variable config : Config.
Variable cacher : option (Cacher S).

(** A transcription request that comes without an upload is answered 500
    with the TypeError's message, before any cache access or upstream call,
    provided the provider name resolves. *)
Theorem transcription_without_file (req : request) (t_get t_set : Z) (s : S)
    (slot : provider_slot) :
  providers_lookup config (provider_of req) = Some slot ->
  file req = VUndefined ->
  run (audio_transcriptions JSON_parse zod_parse fetch digest config cacher
         req t_get t_set) s =
  let message := "Cannot read properties of undefined (reading 'buffer')" in
  (Ok tt,
   {| store := s; res_headers := [];
      trace := [LogError message;
                Respond {| status := 500; response_headers := [];
                           payload := internal_server_error (VStr message) |}] |}).
Proof.
  intros Hslot Hfile. unfold_handler. rewrite Hslot, Hfile. reflexivity.
Qed.

(** On a miss that the upstream answers, the transcript is sent with status
    200 whatever the upstream's status, with the upstream's content type, or
    [text/plain] when it sent none or an empty one. *)
Theorem transcription_miss_response (req : request) (t_get t_set : Z) (s : S)
    (target : string) (init : fetch_init) (up : fetch_response) :
  let tr := trace_of (audio_transcriptions JSON_parse zod_parse fetch digest config
                        cacher req t_get t_set) s in
  In (Fetch target init (Ok up)) tr ->
  responses tr =
  [ {| status := 200;
       response_headers := [("Content-Type", reported_content_type up)];
       payload := Send (VStr (resp_text up)) |} ] /\
  (forall key val a, In (CacheSet key val a) tr ->
     val = stringify_text (transcript_entry (resp_text up) (reported_content_type up))).
Proof.
  intros tr. subst tr. unfold_handler. unfold providers_lookup.
  handler_cases; intros Hin; in_cases Hin;
    rewrite reported_content_type_eq; simpl;
    (split; [reflexivity|]); intros ? ? ? Hset; in_cases Hset; reflexivity.
Qed.

End TranscriptionMore.

Section OtherHandlers.

Context {S : Type}.
Variable JSON_parse : string -> result jsval.
Variable zod_parse : schema -> jsval -> result jsval.
Variable parse_translation_args : jsval -> result jsval.
Variable fetch : string -> fetch_init -> result fetch_response.
Variable config : Config.

(** For a configured Azure provider a translation request is always
    answered, exactly once: 200 with the upstream's text when the upstream
    call returns, else the 500 envelope carrying the error's message.  At
    most one upstream call is made and the store is not touched. *)
Theorem translation_always_answered (req : request) (s : S) (c : provider_config) :
  providers config !! js_to_string (provider_of req) = Some c ->
  type c = AzureOpenAIService ->
  let out := run (audio_translations fetch config parse_translation_args req) s in
  store out.2 = s /\
  exists r, responses (trace out.2) = [r] /\
    ((exists target init up,
        trace out.2 = [Fetch target init (Ok up); Respond r] /\
        r = {| status := 200;
               response_headers := [("Content-Type", reported_content_type up)];
               payload := Send (VStr (resp_text up)) |}) \/
     (exists e, status r = 500 /\ payload r = internal_server_error (VStr e) /\
                (count is_fetch (trace out.2) <= 1)%nat)).
Proof.
  intros Hc Ht out. subst out. unfold_more. unfold providers_lookup.
  rewrite Hc. simpl. rewrite Ht.
  handler_cases; (split; [reflexivity|]); eexists; (split; [reflexivity|]);
    first [ left; do 3 eexists; split; [reflexivity|];
            rewrite reported_content_type_eq; reflexivity
          | right; eexists; repeat split; unfold count; simpl; lia ].
Qed.

(** For a configured Azure provider and a payload that validates, an
    embeddings request whose upstream answer decodes is answered 200 with
    that document, whatever the upstream's status; the upstream URL names
    the deployment taken from the header or, failing that, the payload. *)
Theorem embeddings_relays_document (req : request) (s : S) (c : provider_config)
    (args j : jsval) (up : fetch_response) :
  providers config !! js_to_string (provider_of req) = Some c ->
  type c = AzureOpenAIService ->
  zod_parse AzureOpenAIEmbeddingsArgs (body req) = Ok args ->
  let target := deployment_url (azure_opts c req) "embeddings" "2023-08-01-preview" in
  let init := {| method := "POST";
                 init_headers := [("api-key", api_key c);
                                  ("Content-Type", "application/json")];
                 init_body := TextBody (stringify args) |} in
  fetch target init = Ok up ->
  resp_json up = Ok j ->
  run (embeddings JSON_parse zod_parse fetch config req) s =
  (Ok tt,
   {| store := s; res_headers := [];
      trace := [Fetch target init (Ok up);
                Respond {| status := 200; response_headers := [];
                           payload := Json j |}] |}).
Proof.
  intros Hc Ht Hz target init Hf Hj. subst target init.
  unfold_handler. unfold providers_lookup. rewrite Hc. simpl. rewrite Ht, Hz. simpl.
  rewrite Hf. simpl. rewrite Hj. reflexivity.
Qed.

End OtherHandlers.

(** * Round trips through the in-process cache *)

Module RoundTrip.
Import MemoryCacher.

Lemma get_after_set (key val : string) (t0 now : Z) (this : t) :
  (number_truthy (ttl this) = true -> now <= t0 + default 0 (ttl this) * 1000) ->
  get key now (set key val t0 this) = (Some val, set key val t0 this).
Proof.
  intros Hlive. unfold get, set. simpl. rewrite lookup_insert_eq.
  unfold expired. simpl. destruct (ttl this) as [T|]; simpl in *; [|done].
  destruct (T =? 0) eqn:ET; simpl in *; [done|].
  destruct (t0 + T * 1000 =? 0); simpl; [done|].
  specialize (Hlive eq_refl). replace (now >? t0 + T * 1000) with false by lia. done.
Qed.

Section ChatRoundTrip.

Variable JSON_parse : string -> result jsval.
Variable zod_parse zod_parse' : schema -> jsval -> result jsval.
Variable fetch fetch' : string -> fetch_init -> result fetch_response.
Variable config : Config.

(** The store a run leaves behind when it wrote to the in-process cache. *)
Lemma chat_write_memory (req : request) (t_get t_set : Z) (this : t)
    (key val : string) (a : result unit) :
  In (CacheSet key val a)
     (trace_of (chat_completion JSON_parse zod_parse fetch config
                  (Some MemoryCacher.cacher) req t_get t_set) this) ->
  key = cache_key (provider_of req) (body req) /\
  (exists j, val = stringify_text j) /\
  (exists slot, providers_lookup config (provider_of req) = Some slot) /\
  exists mid,
    store_of (chat_completion JSON_parse zod_parse fetch config
                (Some MemoryCacher.cacher) req t_get t_set) this =
    set key val t_set mid /\ ttl mid = ttl this.
Proof.
  unfold_handler.
  destruct (providers_lookup config (provider_of req)) as [slot|] eqn:Hslot;
    [|simpl; intros [[=]|[]]].
  handler_cases; intros Hin; in_cases Hin;
    (split; [reflexivity|]); (split; [eauto|]); (split; [eauto|]);
    eexists; (split; [reflexivity|]);
    match goal with
    | H : get ?k ?n ?th = (_, ?m) |- ttl ?m = _ =>
        change m with (get k n th).2 || (replace m with (get k n th).2 by (by rewrite H));
        apply (MemoryCacherFacts.step_ttl (OpGet k))
    | _ => reflexivity
    end.
Qed.

(** After a request whose completion was cached in the in-process store, a
    request with the same provider and payload that arrives before the entry
    expires is answered from the cache with the stored completion, marked
    [cached: true], without going upstream, whatever its other headers. *)
Theorem completion_round_trip (req1 req2 : request) (t_get1 t_set1 t_get2 t_set2 : Z) (this : t)
    (key val : string) (a : result unit) (v : jsval) :
  let first := chat_completion JSON_parse zod_parse fetch config
                 (Some MemoryCacher.cacher) req1 t_get1 t_set1 in
  In (CacheSet key val a) (trace_of first this) ->
  provider_of req2 = provider_of req1 -> body req2 = body req1 ->
  no_cache req2 = false ->
  (number_truthy (ttl this) = true -> t_get2 <= t_set1 + default 0 (ttl this) * 1000) ->
  JSON_parse val = Ok v ->
  run (chat_completion JSON_parse zod_parse' fetch' config (Some MemoryCacher.cacher)
         req2 t_get2 t_set2) (store_of first this) =
  (Ok tt,
   {| store := store_of first this;
      res_headers := [("X-Cache-Status", "HIT")];
      trace :=
        [CacheGet key (Ok (Some val));
         Respond {| status := 200;
                    response_headers := [("X-Cache-Status", "HIT")];
                    payload :=
                      Json (VObj (define_property (spread v) "cached" (VBool true))) |}] |}).
Proof.
  intros first Hin Hprov Hbody Hnc Hlive Hparse.
  destruct (chat_write_memory req1 t_get1 t_set1 this key val a Hin)
    as (-> & (j & ->) & (slot & Hslot) & mid & Hstore & Httl).
  subst first. rewrite Hstore.
  unfold_handler. rewrite Hprov, Hbody, Hslot, Hnc. simpl.
  rewrite get_after_set by (by rewrite Httl). simpl.
  pose proof (stringify_text_nonempty j) as Hne.
  apply String.eqb_neq in Hne. rewrite Hne. simpl. rewrite Hparse. reflexivity.
Qed.

End ChatRoundTrip.

Section TranscriptionRoundTrip.

Variable JSON_parse : string -> result jsval.
Variable zod_parse zod_parse' : schema -> jsval -> result jsval.
Variable fetch fetch' : string -> fetch_init -> result fetch_response.
Variable digest : string -> list Z -> list Z.
Variable config : Config.

Lemma transcription_write_memory (req : request) (t_get t_set : Z) (this : t)
    (key val : string) (a : result unit) :
  let first := audio_transcriptions JSON_parse zod_parse fetch digest config
                 (Some MemoryCacher.cacher) req t_get t_set in
  In (CacheSet key val a) (trace_of first this) ->
  key = file_cache_key (provider_of req) (body req) (VObj []) /\
  (exists slot, providers_lookup config (provider_of req) = Some slot) /\
  (exists text content_type,
     val = stringify_text (transcript_entry text content_type) /\
     responses (trace_of first this) =
     [ {| status := 200;
          response_headers := [("Content-Type", content_type)];
          payload := Send (VStr text) |} ]) /\
  exists mid, store_of first this = set key val t_set mid /\ ttl mid = ttl this.
Proof.
  intros first. subst first. unfold_handler.
  destruct (providers_lookup config (provider_of req)) as [slot|] eqn:Hslot;
    [|simpl; intros [[=]|[]]].
  handler_cases; intros Hin; in_cases Hin;
    (split; [reflexivity|]); (split; [eauto|]);
    (split; [do 2 eexists; rewrite reported_content_type_eq; split; reflexivity|]);
    eexists; (split; [reflexivity|]);
    match goal with
    | H : get ?k ?n ?th = (_, ?m) |- ttl ?m = _ =>
        replace m with (get k n th).2 by (by rewrite H);
        apply (MemoryCacherFacts.step_ttl (OpGet k))
    | _ => reflexivity
    end.
Qed.

(** A transcript cached by one request is served to a later request with the
    same provider and form fields that arrives before the entry expires:
    same text, same content type, marked as a hit, no upstream call,
    whatever file the later request uploads. *)
Theorem transcript_round_trip (req1 req2 : request) (t_get1 t_set1 t_get2 t_set2 : Z)
    (this : t) (key val : string) (a : result unit) (bytes2 : list Z) :
  let first := audio_transcriptions JSON_parse zod_parse fetch digest config
                 (Some MemoryCacher.cacher) req1 t_get1 t_set1 in
  In (CacheSet key val a) (trace_of first this) ->
  provider_of req2 = provider_of req1 -> body req2 = body req1 ->
  no_cache req2 = false ->
  member (file req2) "buffer" = Ok (VBuffer bytes2) ->
  (number_truthy (ttl this) = true -> t_get2 <= t_set1 + default 0 (ttl this) * 1000) ->
  exists text content_type,
    val = stringify_text (transcript_entry text content_type) /\
    responses (trace_of first this) =
    [ {| status := 200;
         response_headers := [("Content-Type", content_type)];
         payload := Send (VStr text) |} ] /\
    (JSON_parse val = Ok (transcript_entry text content_type) ->
     run (audio_transcriptions JSON_parse zod_parse' fetch' digest config
            (Some MemoryCacher.cacher) req2 t_get2 t_set2) (store_of first this) =
     (Ok tt,
      {| store := store_of first this;
         res_headers := [("X-Cache-Status", "HIT"); ("Content-Type", content_type)];
         trace :=
           [CacheGet key (Ok (Some val));
            Respond {| status := 200;
                       response_headers :=
                         [("X-Cache-Status", "HIT"); ("Content-Type", content_type)];
                       payload := Send (VStr text) |}] |})).
Proof.
  intros first Hin Hprov Hbody Hnc Hfile Hlive.
  destruct (transcription_write_memory req1 t_get1 t_set1 this key val a Hin)
    as (-> & (slot & Hslot) & (text & ct & -> & Hresp) & mid & Hstore & Httl).
  exists text, ct. split; [done|]. split; [exact Hresp|].
  intros Hparse. subst first. rewrite Hstore.
  unfold_handler. rewrite Hprov, Hbody, Hslot, Hnc, Hfile. simpl.
  change (file_cache_key (provider_of req1) (body req1)
            (VArrayBuffer (digest "SHA-256" bytes2)))
    with (file_cache_key (provider_of req1) (body req1) (VObj [])).
  rewrite get_after_set by (by rewrite Httl). simpl.
  pose proof (stringify_text_nonempty (transcript_entry text ct)) as Hne.
  apply String.eqb_neq in Hne. unfold transcript_entry in *.
  rewrite ?Hne. simpl. rewrite Hparse. reflexivity.
Qed.

End TranscriptionRoundTrip.

End RoundTrip.

(** * Cache keys *)

Lemma append_nil (b : string) : "" +:+ b = b.
Proof. reflexivity. Qed.

Lemma append_cons (x : ascii) (a b : string) : String x a +:+ b = String x (a +:+ b).
Proof. reflexivity. Qed.

Lemma string_app_assoc (a b c : string) : (a +:+ b) +:+ c = a +:+ b +:+ c.
Proof.
  induction a as [|x a IH]; [done|]. rewrite !append_cons. by rewrite IH.
Qed.

Lemma stringify_VStr (s : string) : stringify (VStr s) = Some (quote s).
Proof. reflexivity. Qed.

Lemma stringify_VArrayBuffer (bytes : list Z) : stringify (VArrayBuffer bytes) = Some "{}".
Proof. reflexivity. Qed.

Lemma unquote_quote_char (c : ascii) (rest : string) :
  unquote_char (quote_char c +:+ rest) = Some (c, rest).
Proof.
  destruct c as [b0 b1 b2 b3 b4 b5 b6 b7].
  destruct b0, b1, b2, b3, b4, b5, b6, b7; reflexivity.
Qed.

(** Quoting can be undone: the text that follows a quoted string never
    changes which string was quoted. *)
Lemma quote_body_inj (a b x y : string) :
  quote_body a +:+ dquote +:+ x = quote_body b +:+ dquote +:+ y -> a = b /\ x = y.
Proof.
  revert b. induction a as [|c a IH]; intros [|c' b] H.
  - cbv [quote_body dquote String.append] in H. injection H as ->. done.
  - apply (f_equal unquote_char) in H.
    change (quote_body (String c' b)) with (quote_char c' +:+ quote_body b) in H.
    rewrite string_app_assoc, unquote_quote_char in H. done.
  - apply (f_equal unquote_char) in H.
    change (quote_body (String c a)) with (quote_char c +:+ quote_body a) in H.
    rewrite string_app_assoc, unquote_quote_char in H. done.
  - apply (f_equal unquote_char) in H.
    change (quote_body (String c a)) with (quote_char c +:+ quote_body a) in H.
    change (quote_body (String c' b)) with (quote_char c' +:+ quote_body b) in H.
    rewrite !string_app_assoc, !unquote_quote_char in H.
    injection H as -> H. apply IH in H as [-> ->]. done.
Qed.

Lemma quote_inj (a b x y : string) :
  quote a +:+ x = quote b +:+ y -> a = b /\ x = y.
Proof.
  unfold quote. rewrite !string_app_assoc. intros H.
  unfold dquote at 1 3 in H. rewrite !append_cons, !append_nil in H.
  injection H as H. by apply quote_body_inj.
Qed.

Lemma stringify_form_fields (fields : list (string * string)) :
  stringify (form_fields fields) =
  Some ("{" +:+ String.concat "," (map field_text fields) +:+ "}").
Proof.
  unfold form_fields. rewrite stringify_VObj. unfold stringify_object.
  assert (H : omap (fun kv : string * jsval =>
                      match stringify kv.2 with
                      | Some t => Some (quote kv.1 +:+ ":" +:+ t)
                      | None => None
                      end)
                (map (fun kv : string * string => (kv.1, VStr kv.2)) fields) =
              map field_text fields).
  { induction fields as [|[k v] rest IH]; [done|]. cbn [map omap list_omap fst snd].
    rewrite stringify_VStr. by rewrite IH. }
  by rewrite H.
Qed.

Lemma concat_cons (a : string) (rest : list string) :
  String.concat "," (a :: rest) =
  a +:+ match rest with [] => "" | _ => "," +:+ String.concat "," rest end.
Proof. destruct rest; simpl; [|done]. induction a; [done|]. rewrite append_cons. by f_equal. Qed.

Lemma char_cancel (c : ascii) (a b : string) :
  String c "" +:+ a = String c "" +:+ b -> a = b.
Proof. intros H. by injection H. Qed.

Ltac norm_in H :=
  unfold field_text, quote, dquote in H; cbn [map fst snd String.concat] in H;
  rewrite ?string_app_assoc in H; rewrite ?append_cons, ?append_nil in H.

Lemma fields_text_inj (f1 f2 : list (string * string)) (x y : string) :
  String.concat "," (map field_text f1) +:+ "}" +:+ x =
  String.concat "," (map field_text f2) +:+ "}" +:+ y ->
  f1 = f2 /\ x = y.
Proof.
  revert f2. induction f1 as [|[k1 v1] r1 IH]; intros [|[k2 v2] r2] H.
  - norm_in H. injection H as ->. done.
  - exfalso. cbn [map] in H. rewrite concat_cons in H. norm_in H. discriminate H.
  - exfalso. cbn [map] in H. rewrite concat_cons in H. norm_in H. discriminate H.
  - cbn [map] in H. rewrite !concat_cons in H. unfold field_text in H.
    cbn [fst snd] in H. rewrite !string_app_assoc in H.
    apply quote_inj in H as [-> H].
    apply char_cancel in H.
    apply quote_inj in H as [-> H].
    destruct r1 as [|p1 r1], r2 as [|p2 r2].
    + rewrite !append_nil in H. rewrite ?append_cons, ?append_nil in H.
      injection H as ->. done.
    + exfalso. rewrite ?string_app_assoc in H.
      rewrite ?append_cons, ?append_nil in H. discriminate H.
    + exfalso. rewrite ?string_app_assoc in H.
      rewrite ?append_cons, ?append_nil in H. discriminate H.
    + cbn [map] in H. rewrite !string_app_assoc in H. apply char_cancel in H.
      change (String.concat "," (map field_text (p1 :: r1)) +:+ "}" +:+ x =
              String.concat "," (map field_text (p2 :: r2)) +:+ "}" +:+ y) in H.
      apply IH in H as [[= -> ->] ->]. done.
Qed.

(** Two chat requests that name different providers never share a cache
    key, whatever their payloads. *)
Theorem cache_key_separates_providers (p1 p2 : string) (d1 d2 : jsval) :
  cache_key (VStr p1) d1 = cache_key (VStr p2) d2 -> p1 = p2.
Proof.
  unfold cache_key, stringify_object. cbn [omap list_omap fst snd].
  rewrite !stringify_VStr. intros H.
  assert (Hhead : exists x y, quote p1 +:+ x = quote p2 +:+ y).
  { destruct (stringify d1), (stringify d2); cbn [omap list_omap] in H;
      rewrite !concat_cons in H; rewrite !string_app_assoc in H;
      apply char_cancel in H; apply quote_inj in H as [_ H];
      apply char_cancel in H; eauto. }
  destruct Hhead as (x & y & Hq). by apply quote_inj in Hq as [-> _].
Qed.

(** Two transcription requests share a cache key exactly when they name the
    same provider and carry the same form fields in the same order; the
    uploaded bytes play no part. *)
Theorem transcription_key_collision (p1 p2 : string) (f1 f2 : list (string * string))
    (h1 h2 : list Z) :
  file_cache_key (VStr p1) (form_fields f1) (VArrayBuffer h1) =
  file_cache_key (VStr p2) (form_fields f2) (VArrayBuffer h2) <->
  p1 = p2 /\ f1 = f2.
Proof.
  split; [|by intros [-> ->]].
  unfold file_cache_key, stringify_object. cbn [omap list_omap fst snd].
  rewrite !stringify_form_fields, !stringify_VStr, !stringify_VArrayBuffer.
  cbn [omap list_omap].
  rewrite !concat_cons. rewrite !string_app_assoc. intros H.
  apply char_cancel in H. apply quote_inj in H as [_ H].
  apply char_cancel in H. apply quote_inj in H as [-> H].
  apply char_cancel in H. apply quote_inj in H as [_ H].
  apply char_cancel in H. apply char_cancel in H.
  apply fields_text_inj in H as [-> _]. done.
Qed.

(** * The further properties on concrete inputs *)

Module MoreChecks.
Import Scenario MoreScenario MemoryCacher MemoryCacherMore RoundTrip.

Lemma purge_unobservable_witness :
  let this := set "a" "1" 0 (new (Some 1)) in
  (get "a" 9000 (purge 5000 this)).1 = (get "a" 9000 this).1.
Proof.
  intros this.
  apply (proj2 (purge_unobservable 5000 9000 this "a")). lia.
Defined.

Lemma set_frame_witness :
  let this := set "b" "2" 0 (new (Some 60)) in
  (get "b" 1000 (set "a" "1" 500 this)).1 = (get "b" 1000 this).1 /\
  set "a" "1" 500 (set "b" "3" 700 this) = set "b" "3" 700 (set "a" "1" 500 this).
Proof.
  intros this. apply (set_frame "a" "b" "1" "3" 500 700 1000 this). discriminate.
Defined.

Lemma entries_come_from_sets_witness :
  let ops := [(OpSet "a" "1", 1000); (OpPurge, 2000); (OpGet "a", 3000)] in
  exists now,
    In (OpSet "a" "1", now) ops /\
    Some (1000 + 60 * 1000) = Some (now + 60 * 1000).
Proof.
  intros ops.
  apply (entries_come_from_sets (Some 60) ops "a"
           {| value := "1"; expires := Some (1000 + 60 * 1000) |}).
  reflexivity.
Defined.

Lemma getCacher_accepts_witness :
  (exists e, getCacher refuses tt (Some redis_port_zero) = Throw e) /\
  forall r, getCacher refuses tt (Some redis_config) = Ok (InRedis r) ->
            RedisCacher.ttl r = Some 60 /\ RedisCacher.server r = tt.
Proof.
  split.
  - apply (proj1 (getCacher_accepts refuses tt redis_port_zero eq_refl)).
    split; [reflexivity|]. right. reflexivity.
  - exact (proj2 (proj2 (getCacher_accepts refuses tt redis_config eq_refl))).
Defined.


Lemma imageGeneration_bounded_witness :
  let w := {| store := tt; res_headers := []; trace := [] |} in
  let out := azoai_imageGeneration image_rejected status_text image_opts image_args w in
  calls out.2 = 1%nat /\
  out.1 = Throw "Received non-OK response from Azure OpenAI image generation: 401 Unauthorized".
Proof.
  intros w out.
  apply (proj2 (proj2 (imageGeneration_bounded image_rejected status_text image_opts
                         image_args w))
           {| resp_status := 401; resp_text := stringify_text unauthorized;
              resp_json := Ok unauthorized;
              resp_content_type := Some "application/json" |});
    reflexivity.
Defined.

Lemma imageGeneration_polls_witness :
  let w := {| store := tt; res_headers := []; trace := [] |} in
  ((azoai_imageGeneration image_never_ready status_text image_opts image_args w).1 =
   Throw "Azure OpenAI image generation timed out after 10 tries" /\
   calls (azoai_imageGeneration image_never_ready status_text image_opts image_args w).2 =
   11%nat) /\
  ((azoai_imageGeneration image_upstream status_text image_opts image_args w).1 =
   Ok images /\
   calls (azoai_imageGeneration image_upstream status_text image_opts image_args w).2 =
   4%nat).
Proof.
  intros w. split.
  - refine (proj1 (imageGeneration_polls image_never_ready status_text image_opts
                     image_args tt _ submitted (VStr "op-1") max_tries
                     (fun _ _ => eq_refl) eq_refl eq_refl eq_refl _) eq_refl).
    intros i _. exists {| resp_status := 200; resp_text := stringify_text running;
                          resp_json := Ok running;
                          resp_content_type := Some "application/json" |},
                       running, (VStr "running").
    repeat split; reflexivity.
  - refine (proj2 (imageGeneration_polls image_upstream status_text image_opts
                     image_args tt _ submitted (VStr "op-1") 2
                     (fun _ _ => eq_refl) eq_refl eq_refl eq_refl _)
              _ succeeded _ (fun _ _ => eq_refl) eq_refl eq_refl).
    + intros i Hi.
      exists {| resp_status := 200; resp_text := stringify_text running;
                resp_json := Ok running;
                resp_content_type := Some "application/json" |},
             running, (VStr "running").
      destruct i as [|[|i]]; [repeat split; reflexivity..|lia].
    + unfold max_tries. lia.
Defined.

Lemma cache_hit_is_served_witness :
  run (chat_completion parse_completion accept (upstream answer_ok) config
         (Some MemoryCacher.cacher) (chat "p1" chat_fields None) 1000 2000) warm =
  (Ok tt,
   {| store := warm;
      res_headers := [("X-Cache-Status", "HIT")];
      trace :=
        [CacheGet (cache_key (VStr "p1") (VObj chat_fields))
           (Ok (Some (stringify_text completion_body)));
         Respond {| status := 200;
                    response_headers := [("X-Cache-Status", "HIT")];
                    payload :=
                      Json (VObj (define_property (spread completion_body) "cached"
                                    (VBool true))) |}] |}).
Proof.
  apply (cache_hit_is_served parse_completion accept (upstream answer_ok) config
           (Some MemoryCacher.cacher) (chat "p1" chat_fields None) 1000 2000 warm warm
           MemoryCacher.cacher (OwnProvider p1) (stringify_text completion_body)
           completion_body);
    try reflexivity.
  discriminate.
Defined.

Lemma hit_header_sound_witness :
  let tr := trace_of (chat_completion parse_completion accept (upstream answer_ok) config
                        (Some MemoryCacher.cacher) (chat "p1" chat_fields None) 1000 2000)
              warm in
  (exists key text, In (CacheGet key (Ok (Some text))) tr /\ text ≠ "") /\
  count is_fetch tr = 0%nat /\ count is_cache_set tr = 0%nat.
Proof.
  intros tr.
  apply (hit_header_sound parse_completion accept (upstream answer_ok) config
           (Some MemoryCacher.cacher) (chat "p1" chat_fields None) 1000 2000 warm
           {| status := 200;
              response_headers := [("X-Cache-Status", "HIT")];
              payload := Json (VObj (define_property (spread completion_body) "cached"
                                       (VBool true))) |}).
  - vm_compute. auto.
  - reflexivity.
Defined.

Lemma effects_in_order_witness :
  let tr := trace_of (chat_completion (parse_table []) accept (upstream answer_ok) config
                        (Some MemoryCacher.cacher) (chat "p1" chat_fields None) 1000 2000)
              (new (Some 60)) in
  exists pre r key val a,
    tr = pre ++ [Respond r; CacheSet key val a] /\ status r = 200.
Proof.
  intros tr.
  apply (proj2 (proj2 (effects_in_order (parse_table []) accept (upstream answer_ok)
                         config (Some MemoryCacher.cacher) (chat "p1" chat_fields None)
                         1000 2000 (new (Some 60))))).
  reflexivity.
Defined.


Lemma response_taxonomy_witness :
  let req := chat "nobody" chat_fields None in
  status {| status := 400; response_headers := []; payload := invalid_provider |} = 400 /\
  providers_lookup config (provider_of req) = None.
Proof.
  intros req.
  destruct (response_taxonomy (parse_table []) accept (upstream answer_ok) config
              (Some MemoryCacher.cacher) req 1000 2000 (new (Some 60))
              {| status := 400; response_headers := []; payload := invalid_provider |})
    as [(H1 & _ & H3)|[(H1 & _)|(H1 & _)]].
  - vm_compute. auto.
  - split; [exact H1|exact H3].
  - discriminate H1.
  - discriminate H1.
Defined.

Lemma completion_round_trip_witness :
  let first := chat_completion parse_completion accept (upstream answer_ok) config
                 (Some MemoryCacher.cacher) (chat "p1" chat_fields None) 1000 2000 in
  let later := {| body := VObj chat_fields; x_provider := Some "p1";
                  cache_control := Some "max-age=0";
                  azure_openai_deployment_id := Some "other"; file := VUndefined |} in
  run (chat_completion parse_completion reject (upstream answer_unauthorized) config
         (Some MemoryCacher.cacher) later 62000 63000) (store_of first (new (Some 60))) =
  (Ok tt,
   {| store := store_of first (new (Some 60));
      res_headers := [("X-Cache-Status", "HIT")];
      trace :=
        [CacheGet (cache_key (VStr "p1") (VObj chat_fields))
           (Ok (Some (stringify_text completion_body)));
         Respond {| status := 200;
                    response_headers := [("X-Cache-Status", "HIT")];
                    payload :=
                      Json (VObj (define_property (spread completion_body) "cached"
                                    (VBool true))) |}] |}).
Proof.
  intros first later.
  apply (completion_round_trip parse_completion accept reject (upstream answer_ok)
           (upstream answer_unauthorized) config (chat "p1" chat_fields None) later
           1000 2000 62000 63000 (new (Some 60))
           (cache_key (VStr "p1") (VObj chat_fields)) (stringify_text completion_body)
           (Ok tt) completion_body);
    try reflexivity.
  all: first [ intros _; vm_compute; discriminate | vm_compute; auto 10 ].
Defined.

Lemma transcription_without_file_witness :
  let req := {| body := VObj [("language", VStr "en")]; x_provider := Some "az";
                cache_control := None; azure_openai_deployment_id := Some "whisper";
                file := VUndefined |} in
  responses
    (trace_of (audio_transcriptions (parse_table []) accept (upstream answer_ok) sha
                 config (Some MemoryCacher.cacher) req 1000 2000) (new None)) =
  [ {| status := 500; response_headers := [];
       payload := internal_server_error
                    (VStr "Cannot read properties of undefined (reading 'buffer')") |} ].
Proof.
  intros req. unfold trace_of.
  rewrite (transcription_without_file (parse_table []) accept (upstream answer_ok) sha
             config (Some MemoryCacher.cacher) req 1000 2000 (new None)
             (OwnProvider az) eq_refl eq_refl).
  reflexivity.
Defined.

Lemma transcription_miss_response_witness :
  let tr := trace_of (audio_transcriptions (parse_table []) accept
                        (upstream (Ok plain_answer)) sha config
                        (Some MemoryCacher.cacher) (transcription [1; 2; 3]) 1000 2000)
              (new None) in
  responses tr =
  [ {| status := 200; response_headers := [("Content-Type", "text/plain")];
       payload := Send (VStr "upstream is down") |} ].
Proof.
  intros tr.
  refine (proj1 (transcription_miss_response (parse_table []) accept
                   (upstream (Ok plain_answer)) sha config (Some MemoryCacher.cacher)
                   (transcription [1; 2; 3]) 1000 2000 (new None) _ _ plain_answer _)).
  vm_compute. right. left. reflexivity.
Defined.

Lemma transcript_round_trip_witness :
  let first := audio_transcriptions parse_transcript accept
                 (upstream (answer_transcript "first")) sha config
                 (Some MemoryCacher.cacher) (transcription [1; 2; 3]) 1000 2000 in
  exists text content_type,
    stringify_text transcript = stringify_text (transcript_entry text content_type) /\
    responses (trace_of first (new None)) =
    [ {| status := 200; response_headers := [("Content-Type", content_type)];
         payload := Send (VStr text) |} ] /\
    (parse_transcript (stringify_text transcript) = Ok (transcript_entry text content_type) ->
     run (audio_transcriptions parse_transcript reject (upstream answer_unauthorized) sha
            config (Some MemoryCacher.cacher) (transcription [4; 5; 6]) 3000 4000)
         (store_of first (new None)) =
     (Ok tt,
      {| store := store_of first (new None);
         res_headers := [("X-Cache-Status", "HIT"); ("Content-Type", content_type)];
         trace :=
           [CacheGet (file_cache_key (VStr "az") (VObj [("language", VStr "en")]) (VObj []))
              (Ok (Some (stringify_text transcript)));
            Respond {| status := 200;
                       response_headers :=
                         [("X-Cache-Status", "HIT"); ("Content-Type", content_type)];
                       payload := Send (VStr text) |}] |})).
Proof.
  intros first.
  apply (transcript_round_trip parse_transcript accept reject
           (upstream (answer_transcript "first")) (upstream answer_unauthorized) sha
           config (transcription [1; 2; 3]) (transcription [4; 5; 6]) 1000 2000 3000 4000
           (new None)
           (file_cache_key (VStr "az") (VObj [("language", VStr "en")]) (VObj []))
           (stringify_text transcript) (Ok tt) [4; 5; 6]);
    try reflexivity.
  all: first [ discriminate | vm_compute; auto 10 ].
Defined.

Lemma translation_always_answered_witness :
  let out := run (audio_translations (upstream (answer_transcript "bonjour")) config
                    (accept AzureOpenAIAudioTranscriptionArgs) translation) tt in
  store out.2 = tt /\
  exists r, responses (trace out.2) = [r] /\
    ((exists target init up,
        trace out.2 = [Fetch target init (Ok up); Respond r] /\
        r = {| status := 200;
               response_headers := [("Content-Type", reported_content_type up)];
               payload := Send (VStr (resp_text up)) |}) \/
     (exists e, status r = 500 /\ payload r = internal_server_error (VStr e) /\
                (count is_fetch (trace out.2) <= 1)%nat)).
Proof.
  intros out.
  exact (translation_always_answered (accept AzureOpenAIAudioTranscriptionArgs)
           (upstream (answer_transcript "bonjour")) config translation tt az
           eq_refl eq_refl).
Defined.

Lemma embeddings_relays_document_witness :
  responses
    (trace_of (embeddings (parse_table []) accept (upstream answer_unauthorized) config
                 embedding) tt) =
  [ {| status := 200; response_headers := []; payload := Json unauthorized |} ].
Proof.
  unfold trace_of.
  rewrite (embeddings_relays_document (parse_table []) accept
             (upstream answer_unauthorized) config embedding tt az
             (VObj [("input", VStr "hello")]) unauthorized
             {| resp_status := 401; resp_text := stringify_text unauthorized;
                resp_json := Ok unauthorized;
                resp_content_type := Some "application/json" |}
             eq_refl eq_refl eq_refl eq_refl eq_refl).
  reflexivity.
Defined.

Lemma cache_key_separates_providers_witness :
  cache_key (VStr "p1") (VObj chat_fields) = cache_key (VStr "p1") (VObj chat_fields) /\
  "p1" = "p1".
Proof.
  split; [reflexivity|].
  apply (cache_key_separates_providers "p1" "p1" (VObj chat_fields) (VObj chat_fields)).
  reflexivity.
Defined.

Lemma transcription_key_collision_witness :
  file_cache_key (VStr "az") (form_fields [("language", "en")]) (VArrayBuffer [1; 2; 3]) =
  file_cache_key (VStr "az") (form_fields [("language", "en")]) (VArrayBuffer [4; 5; 6]).
Proof.
  apply (proj2 (transcription_key_collision "az" "az" [("language", "en")]
                  [("language", "en")] [1; 2; 3] [4; 5; 6])).
  split; reflexivity.
Defined.

End MoreChecks.
